(** * EEG trial extraction and signal conditioning: a shallow embedding

    The development follows [data_loader.py]: the class [EEGDataLoader]
    with its trial extractor ([extract_trials]), its conditioning stages
    ([_common_average_reference], [_downsample],
    [_min_max_normalization_per_signal]), the assembly of the corpus
    ([get_trials], [__init__]) and random access ([__getitem__]).

    Conventions of the embedding.
    - A Python exception is a value of [exn]; fallible code lives in the
      [result] monad.
    - Sample values are kept abstract behind the class [Num]: the program
      runs on IEEE binary64 numbers (instance [float_Num]); the instance
      [Qc_Num] reads the same code in exact rational arithmetic.
    - A numpy array of rank 1, 2, 3 is a list, a list of rows, a list of
      trials; rectangularity is a hypothesis ([has_shape], [wf_df]) where a
      statement needs it.
    - Marker values of the event column are integers ([Z]); an empty cell
      of the column (NaN in pandas) is [None]. *)

From Stdlib Require Import String.
From Stdlib Require Import QArith Qcanon Field.
From Stdlib Require Import Floats.
From Stdlib Require Import List ZArith Lia Bool Arith PeanoNat.
Import ListNotations.

#[local] Close Scope Q_scope.
#[local] Close Scope Qc_scope.
#[local] Open Scope nat_scope.
#[local] Open Scope list_scope.

Set Implicit Arguments.

(** ** Exceptions and the result monad *)

Inductive exn : Type :=
| KeyError (keys : list string)   (* the key, or the labels, not found *)
| IndexError
| ValueError
| AxisError.

Inductive result (A : Type) : Type :=
| Ok (a : A)
| Raise (e : exn).

Arguments Ok {A} a.
Arguments Raise {A} e.

Definition bind {A B} (c : result A) (k : A -> result B) : result B :=
  match c with
  | Ok a => k a
  | Raise e => Raise e
  end.

Notation "x <- c ;; k" := (bind c (fun x => k))
  (at level 61, c at next level, right associativity).

Definition succeeds {A} (c : result A) : Prop := exists a, c = Ok a.

(** [for x in xs: st = body(st, x)], stopping at the first exception. *)
Fixpoint for_each {St X} (body : St -> X -> result St) (xs : list X) (st : St)
  : result St :=
  match xs with
  | [] => Ok st
  | x :: xs' => st' <- body st x ;; for_each body xs' st'
  end.

(** A comprehension whose element expression may raise. *)
Fixpoint map_result {X Y} (f : X -> result Y) (xs : list X) : result (list Y) :=
  match xs with
  | [] => Ok []
  | x :: xs' => y <- f x ;; ys <- map_result f xs' ;; Ok (y :: ys)
  end.

(** The same, with the position of the element. *)
Fixpoint map_result_from {X Y} (k : nat) (f : nat -> X -> result Y)
  (xs : list X) : result (list Y) :=
  match xs with
  | [] => Ok []
  | x :: xs' => y <- f k x ;; ys <- map_result_from (S k) f xs' ;; Ok (y :: ys)
  end.

(** ** Python indexing *)

(** [l[k]] on a list or on a rank-1 array: a negative index counts from
    the end, an index outside [-len, len) raises IndexError. *)
Definition py_index {A} (l : list A) (k : Z) : result A :=
  let n := Z.of_nat (length l) in
  let pos := if (k <? 0)%Z then (n + k)%Z else k in
  if ((0 <=? pos) && (pos <? n))%Z then
    match nth_error l (Z.to_nat pos) with
    | Some a => Ok a
    | None => Raise IndexError
    end
  else Raise IndexError.

(** [d[key]] on a dict given as its list of items. *)
Fixpoint dict_get {V} (d : list (string * V)) (key : string) : result V :=
  match d with
  | [] => Raise (KeyError [key])
  | (k, v) :: d' => if String.eqb key k then Ok v else dict_get d' key
  end.

(** ** Numbers *)

Class Num (A : Type) : Type := {
  zero : A;
  one : A;
  add : A -> A -> A;
  sub : A -> A -> A;
  mul : A -> A -> A;
  div : A -> A -> A;
  num_eqb : A -> A -> bool;
  num_leb : A -> A -> bool;
  of_nat : nat -> A
}.

#[export] Instance float_Num : Num float := {
  zero := 0%float;
  one := 1%float;
  add := PrimFloat.add;
  sub := PrimFloat.sub;
  mul := PrimFloat.mul;
  div := PrimFloat.div;
  num_eqb := PrimFloat.eqb;
  num_leb := PrimFloat.leb;
  of_nat := fun n => PrimFloat.of_uint63 (Uint63.of_Z (Z.of_nat n))
}.

#[export] Instance Qc_Num : Num Qc := {
  zero := 0%Qc;
  one := 1%Qc;
  add := Qcplus;
  sub := Qcminus;
  mul := Qcmult;
  div := Qcdiv;
  num_eqb := Qc_eq_bool;
  num_leb := fun x y => Qle_bool x y;
  of_nat := fun n => Q2Qc (inject_Z (Z.of_nat n))
}.

(** ** The recording table and the condition profiles *)

Definition matrix (A : Type) : Type := list (list A).
Definition corpus (A : Type) : Type := list (matrix A).

(** [self.selected_electrodes], set in [__init__]. *)
Definition selected_electrodes : list (string * list string) :=
  [ ("AK-SREP"%string,
      ["F8"; "FCz"; "Fp1"; "AF7"; "AF3"; "C1"; "FC4"; "F1"; "Pz"; "F2"; "P5"; "P6"]%string);
    ("CTK-SREP"%string,
      ["F1"; "P5"; "F4"; "AF7"; "PO5"; "FC1"; "FCz"; "Fp2"; "Fz"; "PO3"; "TP8"; "F4"]%string);
    ("AK-SRES"%string,
      ["AF8"; "FC6"; "F8"; "T8"; "C6"; "AF7"; "Fp2"; "CP6"; "Fpz"; "F4"; "TP8"; "P6"]%string);
    ("CTK-SRES"%string,
      ["F1"; "P4"; "F4"; "AF3"; "CP6"; "P5"; "Fz"; "FC2"; "FC1"; "P6"; "PC6"; "F2"]%string) ].

(** The default of the parameter [target_samples] of [extract_trials]. *)
Definition default_target_samples : nat := 4000.

Section Extraction.

Context {A : Type} {N : Num A}.

(** A decoded recording file: the named channel columns and, last, the
    event column.  The row labels are the positions 0, 1, ... (a
    RangeIndex), column names are unique. *)
Record DataFrame : Type := {
  channels : list (string * list A);
  event_column : list (option Z)
}.

Definition n_rows (df : DataFrame) : nat := length (event_column df).

(** Every channel column has one value per row. *)
Definition wf_df (df : DataFrame) : Prop :=
  Forall (fun c => length (snd c) = n_rows df) (channels df).

(** The cells of a column that are not NaN, each with its row label. *)
Fixpoint notna (k : nat) (col : list (option Z)) : list (nat * Z) :=
  match col with
  | [] => []
  | None :: col' => notna (S k) col'
  | Some v :: col' => (k, v) :: notna (S k) col'
  end.

Definition event_indices (df : DataFrame) : list nat :=
  map fst (notna 0 (event_column df)).

Definition event_values (df : DataFrame) : list Z :=
  map snd (notna 0 (event_column df)).

Fixpoint get_column (cols : list (string * list A)) (name : string)
  : option (list A) :=
  match cols with
  | [] => None
  | (k, c) :: cols' => if String.eqb name k then Some c else get_column cols' name
  end.

Definition has_column (df : DataFrame) (name : string) : bool :=
  match get_column (channels df) name with Some _ => true | None => false end.

(** The rows labelled [start_idx] to [end_idx], both included. *)
Definition loc_rows (start_idx end_idx : nat) (col : list A) : list A :=
  firstn (S end_idx - start_idx) (skipn start_idx col).

(** [Index.unique]: the labels in the order of their first appearance,
    each once. *)
Fixpoint unique_labels (l : list string) : list string :=
  match l with
  | [] => []
  | x :: l' => x :: filter (fun y => negb (String.eqb y x)) (unique_labels l')
  end.

(** The labels the KeyError of a selection by a list of labels quotes,
    [missing] being the requested positions whose label is no column:
    the whole request when none of its labels is found, and otherwise
    the absent labels, each once. *)
Definition not_in_index (names missing : list string) : list string :=
  if length missing =? length names then names else unique_labels missing.

(** [df.loc[start_idx:end_idx, names].values.T]: one row per requested
    name, in the order of the request; KeyError when a name is absent. *)
Definition df_loc_T (df : DataFrame) (start_idx end_idx : nat)
  (names : list string) : result (matrix A) :=
  match filter (fun name => negb (has_column df name)) names with
  | [] =>
      Ok (map (fun name =>
                 match get_column (channels df) name with
                 | Some c => loc_rows start_idx end_idx c
                 | None => []
                 end) names)
  | missing => Raise (KeyError (not_in_index names missing))
  end.

(** [m.shape[0]] and [m.shape[1]] of a matrix with at least one row. *)
Definition shape0 (m : matrix A) : nat := length m.
Definition shape1 (m : matrix A) : nat :=
  match m with
  | [] => 0
  | r :: _ => length r
  end.

Definition np_zeros (rows cols : nat) : matrix A := repeat (repeat zero cols) rows.

Definition np_hstack (a b : matrix A) : matrix A :=
  map (fun rp => fst rp ++ snd rp) (combine a b).

(** Lines 101-107: the trial is brought to [target_samples] columns. *)
Definition fit_length (target_samples : nat) (trial_data : matrix A) : matrix A :=
  let current_samples := shape1 trial_data in
  if current_samples <? target_samples then
    let padding := np_zeros (shape0 trial_data) (target_samples - current_samples) in
    np_hstack trial_data padding
  else if target_samples <? current_samples then
    map (firstn target_samples) trial_data
  else trial_data.

Definition is_reading (trial_type : string) : bool :=
  String.eqb trial_type "reading".

Definition start_event_of (trial_type : string) : Z :=
  if is_reading trial_type then 21%Z else 30%Z.

Definition trials_labels : Type := (list (matrix A) * list Z)%type.

(** The body of the loop of [extract_trials] at index [i]; the state is
    the pair of the lists [trials] and [labels]. *)
Definition extract_body (df : DataFrame) (selected : list string)
  (trial_type : string) (target_samples : nat)
  (st : trials_labels) (i : nat) : result trials_labels :=
  let start_event := start_event_of trial_type in
  v <- py_index (event_values df) (Z.of_nat i) ;;
  if (v =? start_event)%Z then
    if i =? 0 then Ok st
    else
      label <- (if is_reading trial_type
                then py_index (event_values df) (Z.of_nat i - 1)
                else py_index (event_values df) (Z.of_nat i - 3)) ;;
      start_idx <- py_index (event_indices df) (Z.of_nat i) ;;
      if i + 1 <? length (event_indices df) then
        end_idx <- py_index (event_indices df) (Z.of_nat (i + 1)) ;;
        trial_data <- df_loc_T df start_idx end_idx selected ;;
        Ok (fst st ++ [fit_length target_samples trial_data], snd st ++ [label])
      else Ok st
  else Ok st.

Definition extract_trials (df : DataFrame) (class_type trial_type : string)
  (target_samples : nat) : result trials_labels :=
  selected <- dict_get selected_electrodes class_type ;;
  for_each (extract_body df selected trial_type target_samples)
           (seq 0 (length (event_values df))) ([], []).

End Extraction.

(** ** The conditioning stages *)

Section Conditioning.

Context {A : Type} {N : Num A}.

(** *** Stage 4: [_downsample] *)

(** [l[::factor]]: [wait] elements are passed over before the next one
    is kept. *)
Fixpoint every (factor wait : nat) (l : list A) : list A :=
  match l with
  | [] => []
  | x :: l' =>
      match wait with
      | 0 => x :: every factor (factor - 1) l'
      | S w => every factor w l'
      end
  end.

(** [data[:, :, ::factor]]; a step of zero is a ValueError. *)
Definition _downsample (data : corpus A) (factor : nat) : result (corpus A) :=
  if factor =? 0 then Raise ValueError
  else Ok (map (map (every factor 0)) data).

Definition default_factor : nat := 2.

(** *** Stage 2: [_common_average_reference] *)

Definition zip_with (f : A -> A -> A) (a b : list A) : list A :=
  map (fun p => f (fst p) (snd p)) (combine a b).

(** [np.sum(trial, axis=0)]: the rows are added in their order. *)
Definition sum_rows (trial : matrix A) : list A :=
  match trial with
  | [] => []
  | r :: rs => fold_left (zip_with add) rs r
  end.

(** [np.mean(data, axis=1, keepdims=True)] on one trial: one mean per
    sample, over the channels. *)
Definition mean_channels (trial : matrix A) : list A :=
  map (fun s => div s (of_nat (length trial))) (sum_rows trial).

Definition car_trial (trial : matrix A) : matrix A :=
  let avg_reference := mean_channels trial in
  map (fun row => zip_with sub row avg_reference) trial.

Definition _common_average_reference (data : corpus A) : corpus A :=
  map car_trial data.

(** *** Stage 5: [_min_max_normalization_per_signal] *)

Definition is_nan (x : A) : bool := negb (num_eqb x x).

(** The reduction steps of [np.minimum] and [np.maximum]. *)
Definition np_minimum (io1 in2 : A) : A :=
  if num_leb io1 in2 || is_nan io1 then io1 else in2.

Definition np_maximum (io1 in2 : A) : A :=
  if num_leb in2 io1 || is_nan io1 then io1 else in2.

(** [np.min(signal)], [np.max(signal)]: no identity, so an empty axis is
    a ValueError. *)
Definition np_min (signal : list A) : result A :=
  match signal with
  | [] => Raise ValueError
  | x :: xs => Ok (fold_left np_minimum xs x)
  end.

Definition np_max (signal : list A) : result A :=
  match signal with
  | [] => Raise ValueError
  | x :: xs => Ok (fold_left np_maximum xs x)
  end.

(** Lines 69-76 on one (trial, channel) series. *)
Definition normalize_signal (feature_range : A * A) (signal : list A)
  : result (list A) :=
  let (min_val, max_val) := feature_range in
  data_min <- np_min signal ;;
  data_max <- np_max signal ;;
  let data_range := sub data_max data_min in
  let data_range := if num_eqb data_range zero then one else data_range in
  Ok (map (fun x =>
             let normalized := div (sub x data_min) data_range in
             add (mul normalized (sub max_val min_val)) min_val)
          signal).

Definition default_feature_range : A * A := (zero, one).

Definition _min_max_normalization_per_signal (data : corpus A)
  (feature_range : A * A) : result (corpus A) :=
  map_result (map_result (normalize_signal feature_range)) data.

(** *** Shapes, transposition and reshaping *)

Definition has_shape (nt nc ns : nat) (data : corpus A) : Prop :=
  length data = nt /\
  Forall (fun trial => length trial = nc /\
                       Forall (fun row => length row = ns) trial) data.

(** [data.shape] of a rank-3 array. *)
Definition shape3 (data : corpus A) : nat * nat * nat :=
  (length data, shape0 (hd [] data), shape1 (hd [] data)).

(** [m.T] of a matrix with [cols] columns. *)
Fixpoint transpose (cols : nat) (m : matrix A) : matrix A :=
  match m with
  | [] => repeat [] cols
  | r :: rs => map (fun p => fst p :: snd p) (combine r (transpose cols rs))
  end.

Definition flatten3 (data : list (matrix A)) : list A :=
  concat (map (@concat A) data).

(** [k] consecutive pieces of [n] elements. *)
Fixpoint chunks (k n : nat) (l : list A) : list (list A) :=
  match k with
  | 0 => []
  | S k' => firstn n l :: chunks k' n (skipn n l)
  end.

(** [np.array(trials).reshape(shape)], in row-major order. *)
Definition reshape3 (shape : nat * nat * nat) (trials : list (matrix A))
  : result (corpus A) :=
  let '(nt, nc, ns) := shape in
  let flat := flatten3 trials in
  if length flat =? nt * nc * ns
  then Ok (map (chunks nc ns) (chunks nt (nc * ns) flat))
  else Raise ValueError.

End Conditioning.

(** ** Dataset assembly *)

Section Assembly.

Context {A : Type} {N : Num A}.

(** The collaborators outside [data_loader.py].
    - [butter order Wn]: the filter design of scipy, the coefficients
      [(b, a)];
    - [filtfilt b a x]: scipy's forward-backward filter on one series
      (the call filters along the last axis, series by series);
    - [ica_round_trip n k X]: on the estimator [FastICA(n_components=n)],
      at its [k]-th use, [inverse_transform(fit_transform(X))];
    - [compute_G]: [GMatrixCalculator._compute_G_matrix] of the module
      [connections], a pure function of the trial;
    - [torch_tensor]: the conversion to a tensor of the requested dtype. *)
Variable butter : nat -> A -> list A * list A.
Variable filtfilt : list A -> list A -> list A -> result (list A).
Variable ica_round_trip : nat -> nat -> matrix A -> result (matrix A).
Variable compute_G : matrix A -> matrix A.
Variable Tensor : Type.
Variable torch_tensor : matrix A -> Tensor.

(** *** Stage 1: [_butterworth_lowpass_filter] *)
Definition _butterworth_lowpass_filter (data : corpus A)
  (fs cutoff : A) (order : nat) : result (corpus A) :=
  let nyquist := div fs (of_nat 2) in
  let normalized_cutoff := div cutoff nyquist in
  let (b, a) := butter order normalized_cutoff in
  map_result (map_result (filtfilt b a)) data.

(** [data.reshape(data.shape[0], data.shape[1], -1)] of a rank-3 array:
    the array itself, unless [shape[0] * shape[1]] is zero, when numpy
    cannot infer the last extent and raises ValueError. *)
Definition reshape_infer_last (data : corpus A) : result (corpus A) :=
  if length data * shape0 (hd [] data) =? 0 then Raise ValueError else Ok data.

(** *** Stage 3: [_apply_ica] *)
Definition _apply_ica (data : corpus A) : result (corpus A) :=
  reshaped_data <- reshape_infer_last data ;;
  let n_components := shape0 (hd [] reshaped_data) in
  cleaned_data <-
    map_result_from 0
      (fun k trial =>
         let trial_T := transpose (shape1 trial) trial in
         round_trip <- ica_round_trip n_components k trial_T ;;
         Ok (transpose (shape1 round_trip) round_trip))
      reshaped_data ;;
  reshape3 (shape3 data) cleaned_data.

(** Lines 133-137 of [get_trials]. *)
Definition conditioning_pipeline (all_trials : corpus A) : result (corpus A) :=
  filtered_data <-
    _butterworth_lowpass_filter all_trials (of_nat 1000) (of_nat 50) 7 ;;
  let referenced_data := _common_average_reference filtered_data in
  cleaned_data <- _apply_ica referenced_data ;;
  downsampled_data <- _downsample cleaned_data default_factor ;;
  _min_max_normalization_per_signal downsampled_data default_feature_range.

(** *** The file system *)

(** A session directory with its [*.parquet] files, each with the table
    [pd.read_parquet] decodes from it. *)
Record Session : Type := {
  session_path : string;
  parquet_files : list (string * @DataFrame A)
}.

(** The files read so far, oldest first. *)
Definition read_log : Type := list string.

(** The loop over [eeg_files] of one session (lines 123-127). *)
Fixpoint read_files (files : list (string * @DataFrame A))
  (class_type trial_type : string) (acc : @trials_labels A) (log : read_log)
  : read_log * result (@trials_labels A) :=
  match files with
  | [] => (log, Ok acc)
  | (eeg_file, df) :: files' =>
      let log' := log ++ [eeg_file] in            (* load_eeg_data *)
      match extract_trials df class_type trial_type default_target_samples with
      | Raise e => (log', Raise e)
      | Ok (trials, labels) =>
          read_files files' class_type trial_type
                     (fst acc ++ trials, snd acc ++ labels) log'
      end
  end.

(** The loop over [self.sessions] (lines 121-127). *)
Fixpoint read_sessions (sessions : list Session)
  (class_type trial_type : string) (acc : @trials_labels A) (log : read_log)
  : read_log * result (@trials_labels A) :=
  match sessions with
  | [] => (log, Ok acc)
  | session :: sessions' =>
      match read_files (parquet_files session) class_type trial_type acc log with
      | (log', Raise e) => (log', Raise e)
      | (log', Ok acc') => read_sessions sessions' class_type trial_type acc' log'
      end
  end.

Definition get_trials (sessions : list Session) (class_type trial_type : string)
  : read_log * result (corpus A * list Z) :=
  match read_sessions sessions class_type trial_type ([], []) [] with
  | (log, Raise e) => (log, Raise e)
  | (log, Ok (all_trials, all_labels)) =>
      (log,
       match all_trials with
       | [] =>
           (* [np.array([])] has rank 1: the filter sees one series
              without samples, and [np.mean] has no axis 1 to reduce *)
           let (b, a) := butter 7 (div (of_nat 50) (div (of_nat 1000) (of_nat 2))) in
           _ <- filtfilt b a [] ;;
           Raise AxisError
       | _ =>
           normalized_data <- conditioning_pipeline all_trials ;;
           Ok (normalized_data, all_labels)
       end)
  end.

(** The object after [__init__]. *)
Record EEGDataLoader : Type := {
  sessions_of : list Session;
  data : corpus A;
  labels : list Z
}.

(** [EEGDataLoader(root_path, class_type, trial_type)]; [sessions] is the
    sorted list of the subdirectories of [root_path] (line 14). *)
Definition __init__ (sessions : list Session) (class_type trial_type : string)
  : read_log * result EEGDataLoader :=
  let (log, r) := get_trials sessions class_type trial_type in
  (log, dl <- r ;;
        Ok {| sessions_of := sessions; data := fst dl; labels := snd dl |}).

Definition __len__ (self : EEGDataLoader) : nat := length (data self).

Definition __getitem__ (self : EEGDataLoader) (idx : Z)
  : result (Tensor * Tensor * Z) :=
  trial <- py_index (data self) idx ;;
  let adjacency_matrix := torch_tensor (compute_G trial) in
  trial' <- py_index (data self) idx ;;
  let feature_matrix := torch_tensor trial' in
  label <- py_index (labels self) idx ;;
  Ok (feature_matrix, adjacency_matrix, (label - 1)%Z).

End Assembly.

(** ** Vocabulary of the statements *)

Section ExtractionVocabulary.

Context {A : Type} {N : Num A}.

(** How many events before the start event the label is read. *)
Definition label_offset (trial_type : string) : nat :=
  if is_reading trial_type then 1 else 3.

(** The event at index [i] of the stream carries the start marker. *)
Definition is_candidate (df : @DataFrame A) (trial_type : string) (i : nat) : bool :=
  match nth_error (event_values df) i with
  | Some v => (v =? start_event_of trial_type)%Z
  | None => false
  end.

Definition is_first (i : nat) : bool := i =? 0.

Definition has_following (df : @DataFrame A) (i : nat) : bool :=
  i + 1 <? length (event_values df).

(** A candidate that is neither the first event nor the last one. *)
Definition is_kept (df : @DataFrame A) (trial_type : string) (i : nat) : bool :=
  is_candidate df trial_type i && negb (is_first i) && has_following df i.

(** A candidate that is the first event or that no event follows. *)
Definition is_skipped (df : @DataFrame A) (trial_type : string) (i : nat) : bool :=
  is_candidate df trial_type i && (is_first i || negb (has_following df i)).

Definition stream_positions (df : @DataFrame A) : list nat :=
  seq 0 (length (event_values df)).

Definition kept_positions (df : @DataFrame A) (trial_type : string) : list nat :=
  filter (is_kept df trial_type) (stream_positions df).

(** The position, in the output, of the trial of the kept candidate [i]:
    the number of kept candidates before it. *)
Definition rank (df : @DataFrame A) (trial_type : string) (i : nat) : nat :=
  length (filter (is_kept df trial_type) (seq 0 i)).

(** The sample span of the candidate [i]: from its own row to the row of
    the next event. *)
Definition span_of (df : @DataFrame A) (i : nat) : nat * nat :=
  (nth i (event_indices df) 0, nth (i + 1) (event_indices df) 0).

(** The label the loop reads for the candidate [i], wrap-around of the
    index included. *)
Definition label_of (df : @DataFrame A) (trial_type : string) (i : nat) : Z :=
  let n := length (event_values df) in
  let k := if i <? label_offset trial_type
           then n + i - label_offset trial_type
           else i - label_offset trial_type in
  nth k (event_values df) 0%Z.

(** The trial the loop builds for the candidate [i]. *)
Definition trial_of (df : @DataFrame A) (selected : list string)
  (target_samples : nat) (i : nat) : result (matrix A) :=
  trial_data <- df_loc_T df (fst (span_of df i)) (snd (span_of df i)) selected ;;
  Ok (fit_length target_samples trial_data).

Definition columns_present (df : @DataFrame A) (names : list string) : Prop :=
  Forall (fun name => has_column df name = true) names.

End ExtractionVocabulary.

(** ** Example tables *)

(** A table with the given channel names, [n_rows] rows and the given
    event column; the cell of a channel at row [r] holds [r]. *)
Definition example_table {A : Type} {N : Num A} (names : list string)
  (events : list (option Z)) : @DataFrame A :=
  {| channels := map (fun name => (name, map of_nat (seq 0 (length events)))) names;
     event_column := events |}.

Definition AK_SREP_electrodes : list string :=
  ["F8"; "FCz"; "Fp1"; "AF7"; "AF3"; "C1"; "FC4"; "F1"; "Pz"; "F2"; "P5"; "P6"]%string.

(** Events 3, 21, 8, 21 at the rows 0, 2, 6, 7: the start marker 21 at
    stream index 1 opens the span of the rows 2 to 6, the one at
    stream index 3 has no following event. *)
Definition reading_table : @DataFrame float :=
  example_table AK_SREP_electrodes
    [Some 3; None; Some 21; None; None; None; Some 8; Some 21]%Z.

(** Events 4, 30, 9, 6 at the rows 0, 1, 3, 5: the start marker 30 is at
    stream index 1. *)
Definition other_table : @DataFrame float :=
  example_table AK_SREP_electrodes
    [Some 4; Some 30; None; Some 9; None; Some 6]%Z.

(** ** Example corpora *)

(** One trial: a constant channel and a varying one. *)
Definition constant_channel_corpus : corpus float :=
  [[[2.5; 2.5; 2.5]; [1; 3; 2]]]%float.

(** The same shape in exact arithmetic, with a second, constant, trial. *)
Definition exact_corpus : corpus Qc :=
  [[[of_nat 1; of_nat 3; of_nat 2]; [of_nat 5; of_nat 5; of_nat 5]];
   [[of_nat 4; of_nat 4; of_nat 4]; [of_nat 0; of_nat 7; of_nat 7]]].

(** One trial of one channel whose extreme samples, [2^1023] and
    [-2^1023], are finite binary64 numbers while their difference is
    not. *)
Definition wide_range_corpus : corpus float :=
  [[[0x1p1023; -0x1p1023; 0]]]%float.

(** One trial of two channels and one sample, the binary64 numbers
    nearest to 0.1 and 0.2. *)
Definition two_channel_corpus : corpus float :=
  [[[0x1.999999999999ap-4]; [0x1.999999999999ap-3]]]%float.

(** [k] times each element of [a], elementwise. *)
Definition scale {A : Type} {N : Num A} (k : nat) (a : list A) : list A :=
  map (fun x => mul (of_nat k) x) a.

(** ** The conditioning of one trial *)

Section PipelineVocabulary.

Context {A : Type} {N : Num A}.
Variable butter : nat -> A -> list A * list A.
Variable filtfilt : list A -> list A -> list A -> result (list A).
Variable ica_round_trip : nat -> nat -> matrix A -> result (matrix A).

(** The five stages on the trial at position [k] of a corpus with [nc]
    channels. *)
Definition condition_trial (nc k : nat) (trial : matrix A) : result (matrix A) :=
  let (b, a) := butter 7 (div (of_nat 50) (div (of_nat 1000) (of_nat 2))) in
  filtered <- map_result (filtfilt b a) trial ;;
  let referenced := car_trial filtered in
  round_trip <- ica_round_trip nc k (transpose (shape1 referenced) referenced) ;;
  let cleaned := transpose (shape1 round_trip) round_trip in
  let downsampled := map (every default_factor 0) cleaned in
  map_result (normalize_signal default_feature_range) downsampled.

(** The contracts of the collaborators: the filter returns as many
    samples as it is given, the decomposition round trip returns a matrix
    of the shape of its argument. *)
Definition filtfilt_contract : Prop :=
  forall b a x y, filtfilt b a x = Ok y -> length y = length x.

Definition ica_contract : Prop :=
  forall n k (X Y : matrix A) cols,
    Forall (fun row => length row = cols) X ->
    ica_round_trip n k X = Ok Y ->
    length Y = length X /\ Forall (fun row => length row = cols) Y.

End PipelineVocabulary.

(** Stand-ins for the collaborators, to run the assembly on examples:
    a filter and a round trip that return their argument, an adjacency
    matrix without entries, tensors that are the matrices themselves. *)
Definition pass_butter {A : Type} (order : nat) (Wn : A) : list A * list A :=
  ([], []).
Definition pass_filtfilt {A : Type} (b a x : list A) : result (list A) := Ok x.
Definition pass_ica {A : Type} (n k : nat) (X : matrix A) : result (matrix A) :=
  Ok X.
Definition pass_compute_G {A : Type} (trial : matrix A) : matrix A := [].
Definition pass_tensor {A : Type} (m : matrix A) : matrix A := m.

(** One trial of one channel with the 25 samples 0, 1, ..., 24. *)
Definition odd_corpus : corpus float := [[map of_nat (seq 0 25)]].

(** ** Example sessions and datasets *)

Definition reading_session : @Session float :=
  {| session_path := "S01";
     parquet_files := [("S01/rec.parquet"%string, reading_table)] |}.

Definition other_session : @Session float :=
  {| session_path := "S02";
     parquet_files := [("S02/rec.parquet"%string, other_table)] |}.

(** A dataset of two trials of one channel and one sample, with the
    labels 5 and 7. *)
Definition two_trials : @EEGDataLoader float :=
  {| sessions_of := [];
     data := [[[1%float]]; [[2%float]]];
     labels := [5%Z; 7%Z] |}.

(** The tags [self.selected_electrodes] has an entry for. *)
Definition recognized_class (class_type : string) : Prop :=
  In class_type (map fst selected_electrodes).

(** The recording files in the order [get_trials] reads them. *)
Definition all_files {A : Type} (sessions : list (@Session A))
  : list (string * @DataFrame A) :=
  concat (map (@parquet_files A) sessions).

(** The selection of the class type "CTK-SREP", which names "F4"
    twice. *)
Definition CTK_SREP_electrodes : list string :=
  ["F1"; "P5"; "F4"; "AF7"; "PO5"; "FC1"; "FCz"; "Fp2"; "Fz"; "PO3"; "TP8"; "F4"]%string.

(** The events of [reading_table] on a table with every electrode of
    "CTK-SREP" but "F4". *)
Definition table_without_F4 : @DataFrame float :=
  example_table
    ["F1"; "P5"; "AF7"; "PO5"; "FC1"; "FCz"; "Fp2"; "Fz"; "PO3"; "TP8"]%string
    [Some 3; None; Some 21; None; None; None; Some 8; Some 21]%Z.

(** The requested positions whose name is no column of the table, in the
    order of [names]. *)
Definition absent_columns {A : Type} (df : @DataFrame A) (names : list string)
  : list string :=
  filter (fun name => negb (has_column df name)) names.

(** The labels quoted by the KeyError for the selection [names]. *)
Definition missing_key {A : Type} (df : @DataFrame A) (names : list string)
  : list string :=
  if forallb (fun name => negb (has_column df name)) names
  then names
  else unique_labels (absent_columns df names).

(** * Properties *)

Unset Implicit Arguments.

(** ** The result monad and Python indexing *)

Lemma bind_Ok_inv {A B} (c : result A) (k : A -> result B) (b : B) :
  bind c k = Ok b -> exists a, c = Ok a /\ k a = Ok b.
Proof.
  destruct c as [a|e]; simpl; intros H; [eauto | discriminate].
Qed.

Lemma py_index_nonneg {A} (l : list A) (i : nat) (d : A) :
  i < length l -> py_index l (Z.of_nat i) = Ok (nth i l d).
Proof.
  intros Hi. unfold py_index.
  destruct (Z.ltb_spec (Z.of_nat i) 0); [lia|].
  destruct (Z.leb_spec 0 (Z.of_nat i)); [|lia].
  destruct (Z.ltb_spec (Z.of_nat i) (Z.of_nat (length l))); [|lia].
  simpl. rewrite Nat2Z.id.
  rewrite (nth_error_nth' l d Hi). reflexivity.
Qed.

Lemma py_index_wrap {A} (l : list A) (k : Z) (d : A) :
  (- Z.of_nat (length l) <= k < 0)%Z ->
  py_index l k = Ok (nth (Z.to_nat (Z.of_nat (length l) + k)) l d).
Proof.
  intros Hk. unfold py_index.
  destruct (Z.ltb_spec k 0); [|lia].
  destruct (Z.leb_spec 0 (Z.of_nat (length l) + k)); [|lia].
  destruct (Z.ltb_spec (Z.of_nat (length l) + k) (Z.of_nat (length l))); [|lia].
  simpl.
  rewrite (@nth_error_nth' _ l (Z.to_nat (Z.of_nat (length l) + k)) d) by lia.
  reflexivity.
Qed.

Lemma py_index_out {A} (l : list A) (k : Z) :
  (k < - Z.of_nat (length l) \/ Z.of_nat (length l) <= k)%Z ->
  py_index l k = Raise IndexError.
Proof.
  intros Hk. unfold py_index.
  destruct (Z.ltb_spec k 0).
  - destruct (Z.leb_spec 0 (Z.of_nat (length l) + k)); [lia|]. reflexivity.
  - destruct (Z.leb_spec 0 k); [|lia].
    destruct (Z.ltb_spec k (Z.of_nat (length l))); [lia|]. reflexivity.
Qed.

(** ** The trial extractor *)

Section ExtractionFacts.

Context {A : Type} {N : Num A}.
Variable df : @DataFrame A.
Variable selected : list string.
Variable trial_type : string.
Variable target_samples : nat.

Let n := length (event_values df).

Lemma event_indices_length : length (event_indices df) = length (event_values df).
Proof. unfold event_indices, event_values. now rewrite !length_map. Qed.

Lemma is_candidate_nth (i : nat) :
  i < n ->
  is_candidate df trial_type i
  = (nth i (event_values df) 0 =? start_event_of trial_type)%Z.
Proof.
  intros Hi. unfold is_candidate.
  now rewrite (nth_error_nth' (event_values df) 0%Z Hi).
Qed.

(** The label read at a kept candidate never raises: the index is at
    least [-2], and at least two events exist. *)
Lemma label_lookup (i : nat) :
  0 < i -> i < n ->
  (if is_reading trial_type
   then py_index (event_values df) (Z.of_nat i - 1)
   else py_index (event_values df) (Z.of_nat i - 3))
  = Ok (label_of df trial_type i).
Proof.
  intros H0 H1. unfold label_of, label_offset. fold n.
  destruct (is_reading trial_type).
  - destruct (Nat.ltb_spec i 1); [lia|].
    replace (Z.of_nat i - 1)%Z with (Z.of_nat (i - 1)) by lia.
    apply py_index_nonneg. fold n. lia.
  - destruct (Nat.ltb_spec i 3).
    + rewrite (py_index_wrap (event_values df) _ 0%Z) by (fold n; lia).
      fold n. do 2 f_equal. lia.
    + replace (Z.of_nat i - 3)%Z with (Z.of_nat (i - 3)) by lia.
      apply py_index_nonneg. fold n. lia.
Qed.

Lemma extract_body_pass (st : @trials_labels A) (i : nat) :
  i < n -> is_kept df trial_type i = false ->
  extract_body df selected trial_type target_samples st i = Ok st.
Proof.
  intros Hi Hk. unfold extract_body.
  rewrite (py_index_nonneg (event_values df) i 0%Z Hi). simpl.
  unfold is_kept, is_first, has_following in Hk. fold n in Hk.
  rewrite (is_candidate_nth i Hi) in Hk.
  destruct (nth i (event_values df) 0 =? start_event_of trial_type)%Z; [|reflexivity].
  destruct (Nat.eqb_spec i 0) as [->|Hne]; [reflexivity|].
  simpl in Hk. apply Nat.ltb_ge in Hk.
  rewrite label_lookup by lia. simpl.
  rewrite (py_index_nonneg (event_indices df) i 0)
    by (rewrite event_indices_length; exact Hi). simpl.
  rewrite event_indices_length. fold n.
  destruct (Nat.ltb_spec (i + 1) n); [lia|reflexivity].
Qed.

Lemma extract_body_keep (st : @trials_labels A) (i : nat) :
  i < n -> is_kept df trial_type i = true ->
  extract_body df selected trial_type target_samples st i
  = (t <- trial_of df selected target_samples i ;;
     Ok (fst st ++ [t], snd st ++ [label_of df trial_type i])).
Proof.
  intros Hi Hk. unfold extract_body.
  rewrite (py_index_nonneg (event_values df) i 0%Z Hi). simpl.
  unfold is_kept, is_first, has_following in Hk. fold n in Hk.
  rewrite (is_candidate_nth i Hi) in Hk.
  apply andb_prop in Hk. destruct Hk as [Hk Hf].
  apply andb_prop in Hk. destruct Hk as [Hc H0].
  rewrite Hc.
  destruct (Nat.eqb_spec i 0) as [->|Hne]; [discriminate|].
  apply Nat.ltb_lt in Hf.
  rewrite label_lookup by lia. simpl.
  rewrite (py_index_nonneg (event_indices df) i 0)
    by (rewrite event_indices_length; exact Hi). simpl.
  rewrite event_indices_length. fold n.
  destruct (Nat.ltb_spec (i + 1) n); [|lia].
  rewrite (py_index_nonneg (event_indices df) (i + 1) 0)
    by (rewrite event_indices_length; exact Hf). simpl.
  unfold trial_of, span_of. simpl.
  destruct (df_loc_T df _ _ selected); reflexivity.
Qed.

(** The loop, from any state and over any segment of the stream. *)
Lemma for_each_extract (len a : nat) (st : @trials_labels A) :
  a + len <= n ->
  for_each (extract_body df selected trial_type target_samples) (seq a len) st
  = (ts <- map_result (trial_of df selected target_samples)
                      (filter (is_kept df trial_type) (seq a len)) ;;
     Ok (fst st ++ ts,
         snd st ++ map (label_of df trial_type)
                       (filter (is_kept df trial_type) (seq a len)))).
Proof.
  revert a st. induction len as [|len IH]; intros a st Hle; simpl.
  - rewrite !app_nil_r. now destruct st.
  - destruct (is_kept df trial_type a) eqn:Hk.
    + rewrite extract_body_keep by (fold n; lia || assumption). simpl.
      destruct (trial_of df selected target_samples a) as [t|e]; simpl; [|reflexivity].
      rewrite IH by lia. simpl.
      destruct (map_result _ _) as [ts|e]; simpl; [|reflexivity].
      now rewrite <- !app_assoc.
    + rewrite extract_body_pass by (fold n; lia || assumption). simpl.
      apply IH. lia.
Qed.

End ExtractionFacts.

Section FitLength.

Context {A : Type} {N : Num A}.

Lemma np_hstack_zeros (m : matrix A) (k : nat) :
  np_hstack m (np_zeros (shape0 m) k) = map (fun r => r ++ repeat zero k) m.
Proof.
  unfold np_hstack, np_zeros, shape0.
  induction m as [|r m IH]; simpl; [reflexivity|].
  now rewrite IH.
Qed.

Lemma shape1_rect (m : matrix A) (c : nat) :
  Forall (fun r => length r = c) m -> m <> [] -> shape1 m = c.
Proof.
  intros H Hne. destruct m as [|r m]; [congruence|].
  now inversion H.
Qed.

Lemma map_ext_Forall {X Y} (f g : X -> Y) (l : list X) :
  Forall (fun x => f x = g x) l -> map f l = map g l.
Proof.
  induction 1; simpl; congruence.
Qed.

(** What lines 101-107 do to a span of [c] columns. *)
Lemma fit_length_spec (target : nat) (m : matrix A) (c : nat) :
  Forall (fun r => length r = c) m ->
  length (fit_length target m) = length m /\
  Forall (fun r => length r = target) (fit_length target m) /\
  (c < target -> fit_length target m = map (fun r => r ++ repeat zero (target - c)) m) /\
  (target < c -> fit_length target m = map (firstn target) m) /\
  (c = target -> fit_length target m = m).
Proof.
  intros Hrect.
  destruct m as [|r0 m'] eqn:Em.
  { unfold fit_length; simpl.
    destruct (0 <? target), (target <? 0); simpl; repeat split; auto. }
  rewrite <- Em in *.
  assert (Hs : shape1 m = c) by (apply shape1_rect; [assumption | congruence]).
  unfold fit_length. rewrite Hs.
  destruct (Nat.ltb_spec c target) as [Hlt|Hge].
  - rewrite np_hstack_zeros. repeat split; try lia; try reflexivity.
    + now rewrite length_map.
    + apply Forall_map. eapply Forall_impl; [|exact Hrect].
      intros r Hr. simpl in Hr. rewrite length_app, repeat_length. lia.
  - destruct (Nat.ltb_spec target c) as [Hgt|Hle].
    + repeat split; try lia; try reflexivity.
      * now rewrite length_map.
      * apply Forall_map. eapply Forall_impl; [|exact Hrect].
        intros r Hr. simpl in Hr. rewrite length_firstn. lia.
    + assert (Hc : c = target) by lia.
      repeat split; try lia; try reflexivity.
      now rewrite <- Hc.
Qed.

Lemma get_column_In (cols : list (string * list A)) (name : string) (c : list A) :
  get_column cols name = Some c -> exists k, In (k, c) cols.
Proof.
  induction cols as [|[k c'] cols IH]; simpl; [discriminate|].
  destruct (String.eqb name k).
  - intros [= ->]. exists k. now left.
  - intros H. destruct (IH H) as [k' Hk']. exists k'. now right.
Qed.

Lemma df_loc_T_inv (df : @DataFrame A) (s e : nat) (names : list string)
  (m : matrix A) :
  df_loc_T df s e names = Ok m ->
  columns_present df names /\
  m = map (fun name => match get_column (channels df) name with
                       | Some c => loc_rows s e c
                       | None => []
                       end) names.
Proof.
  unfold df_loc_T, columns_present.
  destruct (filter _ names) eqn:Ef; [|discriminate].
  intros [= <-]. split; [|reflexivity].
  apply Forall_forall. intros name Hin.
  destruct (has_column df name) eqn:Eh; [reflexivity|].
  assert (Hf : In name (filter (fun name => negb (has_column df name)) names))
    by (apply filter_In; rewrite Eh; auto).
  rewrite Ef in Hf. destruct Hf.
Qed.

Lemma df_loc_T_present (df : @DataFrame A) (s e : nat) (names : list string) :
  columns_present df names -> succeeds (df_loc_T df s e names).
Proof.
  unfold columns_present, succeeds, df_loc_T. intros Hp.
  assert (Ef : filter (fun name => negb (has_column df name)) names = []).
  { induction Hp as [|x l Hx Hl IH]; simpl; [reflexivity|]. now rewrite Hx. }
  rewrite Ef. eauto.
Qed.

(** The slice of a well-formed table is a rectangle: one row per
    requested name, one column per row of the slice. *)
Lemma df_loc_T_shape (df : @DataFrame A) (s e : nat) (names : list string)
  (m : matrix A) :
  wf_df df -> df_loc_T df s e names = Ok m ->
  length m = length names /\
  Forall (fun r => length r = Nat.min (S e - s) (n_rows df - s)) m.
Proof.
  intros Hwf H. apply df_loc_T_inv in H. destruct H as [Hp ->].
  split; [now rewrite length_map|].
  apply Forall_map.
  eapply Forall_impl; [|exact Hp]. intros name Hn. simpl in Hn.
  unfold has_column in Hn.
  destruct (get_column (channels df) name) as [c|] eqn:Ec; [|discriminate].
  destruct (get_column_In _ _ _ Ec) as [k Hk].
  unfold wf_df in Hwf. rewrite Forall_forall in Hwf.
  specialize (Hwf _ Hk). simpl in Hwf.
  unfold loc_rows. rewrite length_firstn, length_skipn. now rewrite Hwf.
Qed.

End FitLength.

(** ** What [extract_trials] returns *)

Section ExtractTrials.

Context {A : Type} {N : Num A}.

Lemma map_result_Forall2 {X Y} (f : X -> result Y) (xs : list X) (ys : list Y) :
  map_result f xs = Ok ys -> Forall2 (fun x y => f x = Ok y) xs ys.
Proof.
  revert ys. induction xs as [|x xs IH]; simpl; intros ys H.
  - injection H as <-. constructor.
  - apply bind_Ok_inv in H. destruct H as [y [Hy H]].
    apply bind_Ok_inv in H. destruct H as [ys' [Hys H]].
    injection H as <-. constructor; auto.
Qed.

Lemma map_result_succeeds {X Y} (f : X -> result Y) (xs : list X) :
  Forall (fun x => succeeds (f x)) xs -> succeeds (map_result f xs).
Proof.
  induction 1 as [|x xs [y Hy] _ [ys Hys]]; simpl.
  - now exists [].
  - rewrite Hy. simpl. rewrite Hys. simpl. now exists (y :: ys).
Qed.

Lemma map_result_length {X Y} (f : X -> result Y) (xs : list X) (ys : list Y) :
  map_result f xs = Ok ys -> length ys = length xs.
Proof.
  intros H. apply map_result_Forall2 in H.
  symmetry. eapply Forall2_length; eassumption.
Qed.

(** The extractor is the list of the trials and labels of the kept
    positions, in the order of the stream. *)
Lemma extract_trials_spec (df : @DataFrame A) (class_type trial_type : string)
  (target : nat) (selected : list string) :
  dict_get selected_electrodes class_type = Ok selected ->
  extract_trials df class_type trial_type target
  = (ts <- map_result (trial_of df selected target) (kept_positions df trial_type) ;;
     Ok (ts, map (label_of df trial_type) (kept_positions df trial_type))).
Proof.
  intros Hsel. unfold extract_trials. rewrite Hsel. simpl.
  rewrite for_each_extract by lia. reflexivity.
Qed.

Lemma extract_trials_selected (df : @DataFrame A) (class_type trial_type : string)
  (target : nat) (out : @trials_labels A) :
  extract_trials df class_type trial_type target = Ok out ->
  exists selected, dict_get selected_electrodes class_type = Ok selected.
Proof.
  unfold extract_trials. intros H. apply bind_Ok_inv in H.
  destruct H as [sel [Hsel _]]. eauto.
Qed.

Lemma selected_electrodes_count (class_type : string) (selected : list string) :
  dict_get selected_electrodes class_type = Ok selected -> length selected = 12.
Proof.
  unfold selected_electrodes. simpl.
  repeat (destruct (String.eqb class_type _); [intros [= <-]; reflexivity|]).
  discriminate.
Qed.

(** The output position of a kept index. *)
Lemma nth_error_filter_seq {Y} (p : nat -> bool) (f : nat -> Y) (len a i : nat) :
  a <= i < a + len -> p i = true ->
  nth_error (map f (filter p (seq a len))) (length (filter p (seq a (i - a))))
  = Some (f i).
Proof.
  intros Hi Hp.
  replace len with ((i - a) + S (len - S (i - a))) by lia.
  rewrite seq_app, filter_app, map_app.
  rewrite nth_error_app2 by (rewrite length_map; lia).
  rewrite length_map, Nat.sub_diag.
  replace (a + (i - a)) with i by lia.
  simpl. now rewrite Hp.
Qed.

Lemma notna_bounds (col : list (option Z)) (k : nat) :
  Forall (fun p => k <= fst p < k + length col) (notna k col).
Proof.
  revert k. induction col as [|[v|] col IH]; intros k; simpl.
  - constructor.
  - constructor; [simpl; lia|].
    eapply Forall_impl; [|apply (IH (S k))]. simpl. intros; lia.
  - eapply Forall_impl; [|apply (IH (S k))]. simpl. intros; lia.
Qed.

Lemma event_index_in_table (df : @DataFrame A) (i : nat) :
  i < length (event_values df) -> nth i (event_indices df) 0 < n_rows df.
Proof.
  intros Hi. rewrite <- event_indices_length in Hi.
  pose proof (notna_bounds (event_column df) 0) as Hb.
  rewrite Forall_forall in Hb.
  unfold event_indices in *.
  rewrite length_map in Hi.
  specialize (Hb (nth i (notna 0 (event_column df)) (0, 0%Z)) (nth_In _ _ Hi)).
  change 0 with (fst (0, 0%Z)) at 2.
  rewrite (map_nth fst (notna 0 (event_column df)) (0, 0%Z) i) in *.
  unfold n_rows. lia.
Qed.

Lemma kept_position_inv (df : @DataFrame A) (trial_type : string) (i : nat) :
  In i (kept_positions df trial_type) ->
  0 < i /\ i + 1 < length (event_values df) /\
  nth_error (event_values df) i = Some (start_event_of trial_type).
Proof.
  unfold kept_positions, stream_positions. intros H.
  apply filter_In in H. destruct H as [Hin Hk].
  apply in_seq in Hin.
  unfold is_kept, is_first, has_following, is_candidate in Hk.
  apply andb_prop in Hk. destruct Hk as [Hk Hf].
  apply andb_prop in Hk. destruct Hk as [Hc H0].
  apply Nat.ltb_lt in Hf.
  destruct (Nat.eqb_spec i 0); [discriminate|].
  destruct (nth_error (event_values df) i) as [v|]; [|discriminate].
  apply Z.eqb_eq in Hc. subst v. repeat split; auto; lia.
Qed.

End ExtractTrials.

Lemma Forall2_Forall_r {X Y} (R : X -> Y -> Prop) (xs : list X) (ys : list Y) :
  Forall2 R xs ys -> Forall (fun y => exists x, In x xs /\ R x y) ys.
Proof.
  induction 1 as [|x y xs ys Hxy _ IH]; constructor.
  - exists x. split; [now left | assumption].
  - eapply Forall_impl; [|exact IH].
    intros y' [x' [Hin HR]]. exists x'. split; [now right | assumption].
Qed.

Section ExtractTrialsPresent.

Context {A : Type} {N : Num A}.

(** With every selected electrode among the columns, the slice never
    raises, and neither does the extractor. *)
Lemma extract_trials_present (df : @DataFrame A) (class_type trial_type : string)
  (target : nat) (selected : list string) :
  dict_get selected_electrodes class_type = Ok selected ->
  columns_present df selected ->
  exists trials,
    map_result (trial_of df selected target) (kept_positions df trial_type) = Ok trials /\
    extract_trials df class_type trial_type target
    = Ok (trials, map (label_of df trial_type) (kept_positions df trial_type)).
Proof.
  intros Hsel Hp.
  destruct (map_result_succeeds (trial_of df selected target)
              (kept_positions df trial_type)) as [trials Ht].
  { apply Forall_forall. intros i _. unfold trial_of.
    destruct (df_loc_T_present df (fst (span_of df i)) (snd (span_of df i)) _ Hp)
      as [m Hm].
    rewrite Hm. simpl. now eexists. }
  exists trials. split; [exact Ht|].
  rewrite (extract_trials_spec df _ trial_type target _ Hsel), Ht. reflexivity.
Qed.

Lemma map_result_nth {X Y} (f : X -> result Y) (xs : list X) (ys : list Y)
  (k : nat) (x : X) :
  map_result f xs = Ok ys -> nth_error xs k = Some x ->
  exists y, nth_error ys k = Some y /\ f x = Ok y.
Proof.
  intros H. apply map_result_Forall2 in H. revert k.
  induction H as [|x0 y0 xs ys Hxy _ IH]; intros k Hk.
  - destruct k; discriminate.
  - destruct k as [|k]; simpl in *.
    + injection Hk as <-. eauto.
    + auto.
Qed.

Lemma rank_position (df : @DataFrame A) (trial_type : string) (i : nat) :
  i < length (event_values df) -> is_kept df trial_type i = true ->
  nth_error (kept_positions df trial_type) (rank df trial_type i) = Some i.
Proof.
  intros Hi Hk. unfold kept_positions, stream_positions, rank.
  pose proof (nth_error_filter_seq (is_kept df trial_type) (fun j => j)
                (length (event_values df)) 0 i) as H.
  rewrite Nat.sub_0_r, map_id in H. apply H; [lia | exact Hk].
Qed.

Lemma rank_label (df : @DataFrame A) (trial_type : string) (i : nat) :
  i < length (event_values df) -> is_kept df trial_type i = true ->
  nth_error (map (label_of df trial_type) (kept_positions df trial_type))
            (rank df trial_type i)
  = Some (label_of df trial_type i).
Proof.
  intros Hi Hk. rewrite nth_error_map, rank_position by assumption. reflexivity.
Qed.

Lemma is_kept_lt (df : @DataFrame A) (trial_type : string) (i : nat) :
  is_kept df trial_type i = true -> 0 < i /\ i + 1 < length (event_values df).
Proof.
  unfold is_kept, is_first, has_following. intros Hk.
  apply andb_prop in Hk. destruct Hk as [Hk Hf].
  apply andb_prop in Hk. destruct Hk as [_ H0].
  apply Nat.ltb_lt in Hf. destruct (Nat.eqb_spec i 0); [discriminate | lia].
Qed.

(** Every candidate is either kept or skipped, never both. *)
Lemma kept_or_skipped (df : @DataFrame A) (trial_type : string) (l : list nat) :
  length (filter (is_kept df trial_type) l)
  + length (filter (is_skipped df trial_type) l)
  = length (filter (is_candidate df trial_type) l).
Proof.
  induction l as [|i l IH]; simpl; [reflexivity|].
  unfold is_kept, is_skipped in *.
  destruct (is_candidate df trial_type i), (is_first i), (has_following df i);
    simpl; lia.
Qed.

Lemma is_reading_iff (trial_type : string) :
  is_reading trial_type = true <-> trial_type = "reading"%string.
Proof. unfold is_reading. apply String.eqb_eq. Qed.

End ExtractTrialsPresent.

(** ** Claims on the trial extractor *)

(** C1. On a well-formed table, every trial [extract_trials] emits has one
    row per selected electrode (twelve) and exactly [target_samples]
    columns.  It is the slice [span] of a kept candidate, whose rows have
    [c] samples (the closed range of rows of the span): with
    [c < target_samples] each row is followed by [target_samples - c]
    zeros (exactly one zero when [c = target_samples - 1]); with
    [c > target_samples] each row is cut to its leading [target_samples]
    samples (it loses exactly its last sample when
    [c = target_samples + 1]); with [c = target_samples] the span is
    emitted unchanged. *)
Theorem extract_trials_fixed_shape {A : Type} {N : Num A}
  (df : @DataFrame A) (class_type trial_type : string) (target_samples : nat)
  (trials : list (matrix A)) (labels : list Z) :
  wf_df df ->
  extract_trials df class_type trial_type target_samples = Ok (trials, labels) ->
  exists selected_names,
    dict_get selected_electrodes class_type = Ok selected_names /\
    Forall (fun trial =>
      length trial = length selected_names /\
      length trial = 12 /\
      Forall (fun row => length row = target_samples) trial /\
      exists i span c,
        In i (kept_positions df trial_type) /\
        df_loc_T df (fst (span_of df i)) (snd (span_of df i)) selected_names = Ok span /\
        c = S (snd (span_of df i)) - fst (span_of df i) /\
        Forall (fun row => length row = c) span /\
        (c < target_samples ->
           trial = map (fun row => row ++ repeat zero (target_samples - c)) span) /\
        (S c = target_samples ->
           trial = map (fun row => row ++ [zero]) span) /\
        (target_samples < c ->
           trial = map (firstn target_samples) span) /\
        (c = S target_samples ->
           trial = map (@removelast A) span) /\
        (c = target_samples -> trial = span)) trials.
Proof.
  intros Hwf Hex.
  destruct (extract_trials_selected _ _ _ _ _ Hex) as [sel Hsel].
  exists sel. split; [exact Hsel|].
  rewrite (extract_trials_spec df _ trial_type target_samples _ Hsel) in Hex.
  apply bind_Ok_inv in Hex. destruct Hex as [ts [Hts Hex]].
  injection Hex as <- _.
  apply map_result_Forall2, Forall2_Forall_r in Hts.
  eapply Forall_impl; [|exact Hts].
  intros trial [i [Hin Htr]].
  unfold trial_of in Htr.
  apply bind_Ok_inv in Htr. destruct Htr as [span [Hspan Htr]].
  injection Htr as <-.
  destruct (df_loc_T_shape _ _ _ _ _ Hwf Hspan) as [Hrows Hcols].
  destruct (kept_position_inv _ _ _ Hin) as [H0 [Hnext _]].
  pose proof (event_index_in_table df (i + 1) Hnext) as Hend.
  set (c := S (snd (span_of df i)) - fst (span_of df i)).
  assert (Hc : Nat.min (S (snd (span_of df i)) - fst (span_of df i))
                       (n_rows df - fst (span_of df i)) = c).
  { unfold c, span_of. cbn [fst snd]. apply Nat.min_l. lia. }
  rewrite Hc in Hcols.
  destruct (fit_length_spec target_samples _ _ Hcols) as [Hl [Hw [Hpad [Hcut Hsame]]]].
  rewrite Hl, Hrows.
  split; [reflexivity|].
  split; [exact (selected_electrodes_count _ _ Hsel)|].
  split; [exact Hw|].
  exists i, span, c.
  repeat split; auto.
  - intros Hone. rewrite Hpad by lia.
    replace (target_samples - c) with 1 by lia. reflexivity.
  - intros Hone. rewrite Hcut by lia.
    apply map_ext_Forall.
    eapply Forall_impl; [|exact Hcols]. intros row Hrow. simpl in Hrow.
    rewrite removelast_firstn_len. f_equal. lia.
Qed.

Lemma wf_reading_table : wf_df reading_table.
Proof. repeat constructor. Qed.

Lemma reading_table_present : columns_present reading_table AK_SREP_electrodes.
Proof. repeat constructor. Qed.

Lemma other_table_present : columns_present other_table AK_SREP_electrodes.
Proof. repeat constructor. Qed.

Lemma extract_trials_fixed_shape_witness :
  exists trials labels,
    extract_trials reading_table "AK-SREP" "reading" 6 = Ok (trials, labels) /\
    Forall (fun trial => length trial = 12 /\
                         Forall (fun row => length row = 6) trial) trials.
Proof.
  destruct (extract_trials reading_table "AK-SREP" "reading" 6)
    as [[trials labels]|e] eqn:E; [|vm_compute in E; discriminate].
  exists trials, labels. split; [reflexivity|].
  destruct (extract_trials_fixed_shape reading_table "AK-SREP" "reading" 6
              trials labels wf_reading_table E) as [sel [_ H]].
  eapply Forall_impl; [|exact H].
  intros t [_ [H12 [H6 _]]]. split; assumption.
Defined.

(** C2. With the selected electrodes among the columns of the table,
    [extract_trials] raises nothing and emits, in the order of the stream,
    one trial and one label for each candidate that is neither the first
    event nor the last one, and nothing else: a candidate is left out
    exactly when it is the first event of the stream or no event follows
    it.  Each emitted trial and label is the one of its own candidate
    ([trial_of], [label_of]), so a skipped candidate takes exactly one
    trial away from the count of the candidates and changes no other. *)
Theorem extract_trials_skips {A : Type} {N : Num A}
  (df : @DataFrame A) (class_type trial_type : string) (target_samples : nat)
  (selected_names : list string) :
  dict_get selected_electrodes class_type = Ok selected_names ->
  columns_present df selected_names ->
  exists trials labels,
    extract_trials df class_type trial_type target_samples = Ok (trials, labels) /\
    (forall i, i < length (event_values df) ->
               is_candidate df trial_type i = true ->
               (is_kept df trial_type i = false <->
                (i = 0 \/ i + 1 = length (event_values df)))) /\
    (forall i, i < length (event_values df) ->
               is_skipped df trial_type i = true ->
               ~ In i (kept_positions df trial_type)) /\
    Forall2 (fun i trial => trial_of df selected_names target_samples i = Ok trial)
            (kept_positions df trial_type) trials /\
    labels = map (label_of df trial_type) (kept_positions df trial_type) /\
    length labels = length trials /\
    length trials + length (filter (is_skipped df trial_type) (stream_positions df))
    = length (filter (is_candidate df trial_type) (stream_positions df)).
Proof.
  intros Hsel Hp.
  destruct (extract_trials_present df class_type trial_type target_samples
              selected_names Hsel Hp) as [trials [Ht Hex]].
  exists trials, (map (label_of df trial_type) (kept_positions df trial_type)).
  pose proof (map_result_length _ _ _ Ht) as Hlen.
  repeat split.
  - exact Hex.
  - unfold is_kept, is_first, has_following. rewrite H0. simpl.
    destruct (Nat.eqb_spec i 0); simpl; [lia|].
    destruct (Nat.ltb_spec (i + 1) (length (event_values df))); [discriminate | lia].
  - intros [-> | Hlast]; unfold is_kept, is_first, has_following; rewrite H0; simpl.
    + reflexivity.
    + destruct (Nat.eqb_spec i 0); simpl; [reflexivity|].
      apply Nat.ltb_ge. lia.
  - intros i Hi Hs Hin. unfold kept_positions in Hin.
    apply filter_In in Hin. destruct Hin as [_ Hk].
    unfold is_kept, is_skipped in *.
    destruct (is_candidate df trial_type i), (is_first i), (has_following df i);
      discriminate.
  - apply map_result_Forall2. exact Ht.
  - rewrite length_map. symmetry. exact Hlen.
  - rewrite Hlen. apply kept_or_skipped.
Qed.

Lemma extract_trials_skips_witness :
  exists trials labels,
    extract_trials reading_table "AK-SREP" "reading" 6 = Ok (trials, labels) /\
    length trials = 1 /\ labels = [3%Z].
Proof.
  destruct (extract_trials_skips reading_table "AK-SREP" "reading" 6
              AK_SREP_electrodes eq_refl reading_table_present)
    as [trials [labels [Hex [_ [_ [_ [Hl [Hlen _]]]]]]]].
  exists trials, labels. split; [exact Hex|].
  split; [rewrite <- Hlen, Hl | rewrite Hl]; reflexivity.
Defined.

(** C3. For a candidate at stream index [i] that is kept (it is neither
    the first nor the last event) and has [i] at least the label offset,
    the label emitted for it, at its position [rank] in the output, is the
    marker value at stream index [i - 1] when [trial_type] is "reading"
    (start marker 21) and at stream index [i - 3] for any other
    [trial_type] (start marker 30). *)
Theorem label_of_valid_candidate {A : Type} {N : Num A}
  (df : @DataFrame A) (class_type trial_type : string) (target_samples : nat)
  (trials : list (matrix A)) (labels : list Z) (i : nat) :
  extract_trials df class_type trial_type target_samples = Ok (trials, labels) ->
  is_kept df trial_type i = true ->
  label_offset trial_type <= i ->
  (trial_type = "reading"%string ->
     start_event_of trial_type = 21%Z /\
     label_offset trial_type = 1 /\
     exists v, nth_error (event_values df) (i - 1) = Some v /\
               nth_error labels (rank df trial_type i) = Some v) /\
  (trial_type <> "reading"%string ->
     start_event_of trial_type = 30%Z /\
     label_offset trial_type = 3 /\
     exists v, nth_error (event_values df) (i - 3) = Some v /\
               nth_error labels (rank df trial_type i) = Some v).
Proof.
  intros Hex Hk Hoff.
  destruct (extract_trials_selected _ _ _ _ _ Hex) as [sel Hsel].
  rewrite (extract_trials_spec df _ trial_type target_samples _ Hsel) in Hex.
  apply bind_Ok_inv in Hex. destruct Hex as [ts [_ Hex]].
  injection Hex as _ <-.
  destruct (is_kept_lt _ _ _ Hk) as [H0 Hn].
  rewrite rank_label by (lia || assumption).
  assert (Hlab : label_of df trial_type i
                 = nth (i - label_offset trial_type) (event_values df) 0%Z).
  { unfold label_of. destruct (Nat.ltb_spec i (label_offset trial_type)); [lia|].
    reflexivity. }
  assert (Hnth : nth_error (event_values df) (i - label_offset trial_type)
                 = Some (label_of df trial_type i)).
  { rewrite Hlab. apply nth_error_nth'. lia. }
  unfold start_event_of, label_offset in *.
  split; intros Htt.
  - apply is_reading_iff in Htt. rewrite Htt in *. eauto.
  - destruct (is_reading trial_type) eqn:Er.
    + apply is_reading_iff in Er. contradiction.
    + eauto.
Qed.

Lemma label_of_valid_candidate_witness :
  exists labels,
    nth_error labels (rank reading_table "reading" 1) = Some 3%Z.
Proof.
  destruct (extract_trials reading_table "AK-SREP" "reading" 6)
    as [[trials labels]|e] eqn:E; [|vm_compute in E; discriminate].
  exists labels.
  destruct (label_of_valid_candidate reading_table "AK-SREP" "reading" 6
              trials labels 1 E eq_refl (le_n 1)) as [Hr _].
  destruct (Hr eq_refl) as [_ [_ [v [Hv Hl]]]].
  rewrite Hl. rewrite <- Hv. reflexivity.
Defined.

(** C9. For a [trial_type] other than "reading" (label offset 3), a start
    marker 30 at stream index [i = 1] or [i = 2] that has a following
    event is kept and raises nothing: [extract_trials] emits a trial for
    it, and its label is the marker value at stream index
    [len(event stream) + i - 3], the index [i - 3] counted from the end
    of the stream. *)
Theorem label_wraps_around {A : Type} {N : Num A}
  (df : @DataFrame A) (class_type trial_type : string) (target_samples : nat)
  (selected_names : list string) (i : nat) :
  dict_get selected_electrodes class_type = Ok selected_names ->
  columns_present df selected_names ->
  trial_type <> "reading"%string ->
  i = 1 \/ i = 2 ->
  nth_error (event_values df) i = Some 30%Z ->
  i + 1 < length (event_values df) ->
  exists trials labels,
    extract_trials df class_type trial_type target_samples = Ok (trials, labels) /\
    is_kept df trial_type i = true /\
    exists trial v,
      nth_error trials (rank df trial_type i) = Some trial /\
      trial_of df selected_names target_samples i = Ok trial /\
      nth_error (event_values df) (length (event_values df) + i - 3) = Some v /\
      nth_error labels (rank df trial_type i) = Some v.
Proof.
  intros Hsel Hp Htt Hi Hev Hnext.
  destruct (extract_trials_present df class_type trial_type target_samples
              selected_names Hsel Hp) as [trials [Ht Hex]].
  assert (Er : is_reading trial_type = false).
  { destruct (is_reading trial_type) eqn:Er; [|reflexivity].
    apply is_reading_iff in Er. contradiction. }
  assert (Hk : is_kept df trial_type i = true).
  { unfold is_kept, is_candidate, is_first, has_following, start_event_of.
    rewrite Hev, Er. simpl.
    destruct Hi as [-> | ->]; simpl; apply Nat.ltb_lt; lia. }
  exists trials, (map (label_of df trial_type) (kept_positions df trial_type)).
  split; [exact Hex|]. split; [exact Hk|].
  destruct (map_result_nth _ _ _ _ _ Ht (rank_position df trial_type i ltac:(lia) Hk))
    as [trial [Hnth Htrial]].
  exists trial, (label_of df trial_type i).
  repeat split; try assumption.
  - unfold label_of, label_offset. rewrite Er.
    destruct (Nat.ltb_spec i 3); [|lia].
    apply nth_error_nth'. lia.
  - apply rank_label; [lia | exact Hk].
Qed.

Lemma label_wraps_around_witness :
  exists trials labels,
    extract_trials other_table "AK-SREP" "thinking" 4 = Ok (trials, labels) /\
    nth_error labels (rank other_table "thinking" 1) = Some 9%Z.
Proof.
  destruct (label_wraps_around other_table "AK-SREP" "thinking" 4
              AK_SREP_electrodes 1 eq_refl other_table_present)
    as [trials [labels [Hex [_ [trial [v [_ [_ [Hv Hl]]]]]]]]].
  - discriminate.
  - now left.
  - reflexivity.
  - vm_compute. lia.
  - exists trials, labels. split; [exact Hex|].
    rewrite Hl, <- Hv. reflexivity.
Defined.

(** ** Exact arithmetic: the instance [Qc_Num] *)

Section ExactArithmetic.

#[local] Open Scope Qc_scope.










End ExactArithmetic.

Section MinMaxExact.

#[local] Open Scope Qc_scope.







End MinMaxExact.

(** ** Binary64 arithmetic: the instance [float_Num] *)

Section Binary64.

#[local] Open Scope float_scope.

(** A finite number is a zero or has a mantissa and an exponent. *)
Lemma is_finite_cases (v : float) :
  PrimFloat.is_finite v = true ->
  (exists s, Prim2SF v = S754_zero s) \/ (exists s m e, Prim2SF v = S754_finite s m e).
Proof.
  unfold PrimFloat.is_finite, PrimFloat.is_nan, PrimFloat.is_infinity.
  rewrite !FloatAxioms.eqb_spec, abs_spec.
  destruct (Prim2SF v) as [s|s| |s m e] eqn:E; intros H.
  - left. now exists s.
  - exfalso. destruct s; vm_compute in H; discriminate.
  - exfalso. vm_compute in H. discriminate.
  - right. now exists s, m, e.
Qed.

(** The difference of a finite number with itself is [+0]. *)
Lemma sub_self_finite (v : float) :
  PrimFloat.is_finite v = true -> v - v = 0.
Proof.
  intros Hfin. apply Prim2SF_inj. rewrite sub_spec.
  destruct (is_finite_cases v Hfin) as [[s E] | [s [m [e E]]]]; rewrite E.
  - destruct s; reflexivity.
  - unfold SF64sub, SFsub.
    match goal with
    | |- binary_normalize _ _ ?d _ _ = _ => replace d with 0%Z
    end.
    + reflexivity.
    + symmetry. apply Z.sub_diag.
Qed.

Lemma fold_minimum_repeat {A : Type} {N : Num A} (v : A) (n : nat) :
  fold_left np_minimum (repeat v n) v = v.
Proof.
  induction n as [|n IH]; simpl; [reflexivity|].
  unfold np_minimum at 2.
  destruct (num_leb v v || is_nan v); exact IH.
Qed.

Lemma fold_maximum_repeat {A : Type} {N : Num A} (v : A) (n : nat) :
  fold_left np_maximum (repeat v n) v = v.
Proof.
  induction n as [|n IH]; simpl; [reflexivity|].
  unfold np_maximum at 2.
  destruct (num_leb v v || is_nan v); exact IH.
Qed.

(** A constant finite series: the divisor [v - v] is zero and is replaced
    by one. *)
Lemma normalize_constant_float (v lo hi : float) (n : nat) :
  PrimFloat.is_finite v = true ->
  normalize_signal (lo, hi) (repeat v (S n))
  = Ok (repeat ((v - v) / 1 * (hi - lo) + lo) (S n)).
Proof.
  intros Hfin.
  change (repeat v (S n)) with (v :: repeat v n) at 1.
  cbv [normalize_signal np_min np_max bind].
  rewrite fold_minimum_repeat, fold_maximum_repeat.
  cbn [sub num_eqb zero one float_Num add mul div].
  rewrite (sub_self_finite v Hfin).
  change (0 =? 0) with true. cbv iota.
  f_equal.
  change (v :: repeat v n) with (repeat v (S n)).
  rewrite map_repeat.
  rewrite (sub_self_finite v Hfin). reflexivity.
Qed.

End Binary64.

(** ** Claims on the min-max normalization *)

(** C4. In binary64 arithmetic, a channel of a trial whose samples all
    equal one finite value [v] leaves the min-max stage as a constant
    channel: the divisor [max - min = v - v] is [0] and is replaced by
    [1], so every sample becomes [(v - v) / 1 * (max_val - min_val) +
    min_val]; with the default range [(0, 1)] this is [0], the lower
    bound of the range, and neither NaN nor an infinity. *)
Theorem constant_channel_normalized
  (data out : corpus float) (lo hi : float) (t c : nat)
  (trial : matrix float) (v : float) (n : nat) :
  PrimFloat.is_finite v = true ->
  _min_max_normalization_per_signal data (lo, hi) = Ok out ->
  nth_error data t = Some trial ->
  nth_error trial c = Some (repeat v (S n)) ->
  exists trial',
    nth_error out t = Some trial' /\
    nth_error trial' c
    = Some (repeat ((v - v) / 1 * (hi - lo) + lo)%float (S n)) /\
    ((lo, hi) = default_feature_range ->
       ((v - v) / 1 * (hi - lo) + lo)%float = lo /\
       PrimFloat.is_nan ((v - v) / 1 * (hi - lo) + lo)%float = false /\
       PrimFloat.is_infinity ((v - v) / 1 * (hi - lo) + lo)%float = false).
Proof.
  intros Hfin Hout Ht Hc.
  unfold _min_max_normalization_per_signal in Hout.
  destruct (map_result_nth _ _ _ _ _ Hout Ht) as [trial' [Ht' Htrial]].
  destruct (map_result_nth _ _ _ _ _ Htrial Hc) as [channel' [Hc' Hch]].
  rewrite (normalize_constant_float v lo hi n Hfin) in Hch.
  injection Hch as <-.
  exists trial'. split; [exact Ht'|]. split; [exact Hc'|].
  intros [= -> ->]. rewrite (sub_self_finite v Hfin).
  repeat split; reflexivity.
Qed.

Lemma constant_channel_normalized_witness :
  exists trial',
    nth_error [[[0; 0; 0]; [0; 1; 0.5]]]%float 0 = Some trial' /\
    nth_error trial' 0 = Some [0; 0; 0]%float.
Proof.
  destruct (constant_channel_normalized constant_channel_corpus
              [[[0; 0; 0]; [0; 1; 0.5]]]%float 0%float 1%float 0 0
              [[2.5; 2.5; 2.5]; [1; 3; 2]]%float 2.5%float 2
              eq_refl eq_refl eq_refl eq_refl) as [trial' [Ht [Hc _]]].
  exists trial'. split; [exact Ht | exact Hc].
Defined.

(** The same in exact arithmetic, for any target range. *)
Lemma normalize_constant_exact (v lo hi : Qc) (n : nat) :
  normalize_signal (lo, hi) (repeat v (S n)) = Ok (repeat lo (S n)).
Proof.
  change (repeat v (S n)) with (v :: repeat v n) at 1.
  cbv [normalize_signal np_min np_max bind].
  rewrite fold_minimum_repeat, fold_maximum_repeat.
  f_equal. change (v :: repeat v n) with (repeat v (S n)).
  rewrite map_repeat. f_equal. simpl.
  unfold Qc_eq_bool. destruct (Qc_eq_dec (v - v) 0) as [_|E].
  - field. discriminate.
  - exfalso. apply E. ring.
Qed.

(** A channel of infinities is constant as well, but leaves the stage as
    NaN: [inf - inf] is NaN, which is not [0]. *)
Example normalize_infinite_channel :
  normalize_signal default_feature_range [infinity; infinity]%float
  = Ok [nan; nan]%float.
Proof. reflexivity. Qed.



(** On binary64 numbers the second pass is the identity as well on this
    corpus. *)
Example min_max_twice_binary64 :
  _min_max_normalization_per_signal
    [[[0; 0; 0]; [0; 1; 0.5]]]%float default_feature_range
  = Ok [[[0; 0; 0]; [0; 1; 0.5]]]%float.
Proof. reflexivity. Qed.


Example min_max_binary64_values :
  PrimFloat.sub 0x1p1023 (-0x1p1023) = infinity /\
  _min_max_normalization_per_signal wide_range_corpus default_feature_range
  = Ok [[[nan; 0; 0]]]%float /\
  _min_max_normalization_per_signal [[[nan; 0; 0]]]%float default_feature_range
  = Ok [[[nan; nan; nan]]]%float.
Proof. repeat split; vm_compute; reflexivity. Qed.

(** ** The common average reference in exact arithmetic *)

Section CarExact.

#[local] Open Scope Qc_scope.

Lemma of_nat_succ (k : nat) : of_nat (S k) = of_nat k + 1.
Proof.
  cbv [of_nat Qc_Num]. unfold Qcplus. apply Q2Qc_eq_iff.
  rewrite Nat2Z.inj_succ, <- Z.add_1_r, inject_Z_plus.
  apply Qplus_comp; [|reflexivity].
  symmetry. apply Qred_correct.
Qed.

Lemma of_nat_nonzero (k : nat) : (0 < k)%nat -> (of_nat k : Qc) <> 0.
Proof.
  intros Hk E. cbv [of_nat Qc_Num] in E. apply Q2Qc_eq_iff in E.
  unfold Qeq in E. simpl in E. lia.
Qed.

Lemma zip_with_length {A : Type} (f : A -> A -> A) (a b : list A) (ns : nat) :
  length a = ns -> length b = ns -> length (zip_with f a b) = ns.
Proof.
  intros Ha Hb. unfold zip_with.
  rewrite length_map, length_combine. lia.
Qed.

Lemma zip_with_cons (f : Qc -> Qc -> Qc) (x y : Qc) (a b : list Qc) :
  zip_with f (x :: a) (y :: b) = f x y :: zip_with f a b.
Proof. reflexivity. Qed.

(** Adding one more referenced row. *)
Lemma add_referenced_row (x y a : list Qc) (k : nat) :
  length x = length a -> length y = length a ->
  zip_with add (zip_with sub x (scale k a)) (zip_with sub y a)
  = zip_with sub (zip_with add x y) (scale (S k) a).
Proof.
  revert y a. induction x as [|x0 x IH]; intros [|y0 y] [|a0 a] Hx Hy;
    try discriminate Hx; try discriminate Hy; [reflexivity|].
  unfold scale in *. cbn [map]. rewrite !zip_with_cons.
  f_equal.
  - rewrite of_nat_succ. generalize (of_nat k : Qc). intros q.
    simpl. ring.
  - apply IH; [injection Hx | injection Hy]; auto.
Qed.

Lemma fold_add_length {A : Type} {N : Num A} (rs : matrix A) (acc : list A)
  (ns : nat) :
  length acc = ns -> Forall (fun r => length r = ns) rs ->
  length (fold_left (zip_with add) rs acc) = ns.
Proof.
  revert acc. induction rs as [|r rs IH]; intros acc Hacc Hrs; simpl; [exact Hacc|].
  inversion Hrs; subst. apply IH; [|assumption].
  now apply zip_with_length.
Qed.

(** The sum of the referenced rows. *)
Lemma fold_add_referenced (rs : matrix Qc) (acc a : list Qc) (k : nat) :
  length acc = length a -> Forall (fun r => length r = length a) rs ->
  fold_left (zip_with add) (map (fun r => zip_with sub r a) rs)
            (zip_with sub acc (scale k a))
  = zip_with sub (fold_left (zip_with add) rs acc) (scale (k + length rs) a).
Proof.
  revert acc k. induction rs as [|r rs IH]; intros acc k Hacc Hrs; simpl.
  - now rewrite Nat.add_0_r.
  - inversion Hrs; subst.
    rewrite add_referenced_row by assumption.
    rewrite IH; [|now apply zip_with_length | assumption].
    now rewrite <- Nat.add_succ_comm.
Qed.

Lemma scale_one (a : list Qc) : scale 1 a = a.
Proof.
  unfold scale. rewrite <- (map_id a) at 2. apply map_ext.
  intros x. simpl. change (Q2Qc (inject_Z 1)) with 1. ring.
Qed.

Lemma scale_mean (s : list Qc) (k : nat) :
  (0 < k)%nat -> scale k (map (fun x => x / of_nat k) s) = s.
Proof.
  intros Hk. unfold scale. rewrite map_map.
  rewrite <- (map_id s) at 2. apply map_ext.
  intros x. pose proof (of_nat_nonzero k Hk) as Hq. revert Hq.
  generalize (of_nat k : Qc). intros q Hq. simpl. field. exact Hq.
Qed.

Lemma zip_sub_self (s : list Qc) : zip_with sub s s = repeat 0 (length s).
Proof.
  induction s as [|x s IH]; [reflexivity|].
  rewrite zip_with_cons. simpl repeat. f_equal; [simpl; ring | exact IH].
Qed.

Lemma zip_sub_zeros (r : list Qc) : zip_with sub r (repeat 0 (length r)) = r.
Proof.
  induction r as [|x r IH]; [reflexivity|].
  simpl repeat. rewrite zip_with_cons. f_equal; [simpl; ring | exact IH].
Qed.

Lemma sum_rows_length {A : Type} {N : Num A} (trial : matrix A) (ns : nat) :
  trial <> [] -> Forall (fun r => length r = ns) trial ->
  length (sum_rows trial) = ns.
Proof.
  destruct trial as [|r rs]; [congruence|]. intros _ H.
  inversion H; subst. now apply fold_add_length.
Qed.

(** After one application the mean over the channels is zero at every
    sample. *)
Lemma mean_channels_car (trial : matrix Qc) (ns : nat) :
  trial <> [] -> Forall (fun r => length r = ns) trial ->
  mean_channels (car_trial trial) = repeat 0 ns.
Proof.
  intros Hne Hrect.
  pose proof (sum_rows_length trial ns Hne Hrect) as Hsum.
  destruct trial as [|r rs]; [congruence|].
  assert (Hk : (0 < length (r :: rs))%nat) by (simpl; lia).
  set (a := mean_channels (r :: rs)).
  assert (Ha : length a = ns) by (unfold a, mean_channels; now rewrite length_map).
  inversion Hrect as [|r' rs' Hr Hrs]; subst r' rs'.
  unfold mean_channels at 1. unfold car_trial. fold a. rewrite length_map.
  assert (Hs : sum_rows (map (fun row => zip_with sub row a) (r :: rs))
               = repeat 0 ns).
  { cbn [map sum_rows].
    replace (zip_with sub r a) with (zip_with sub r (scale 1 a))
      by now rewrite scale_one.
    rewrite fold_add_referenced by (rewrite Ha; assumption).
    change (fold_left (zip_with add) rs r) with (sum_rows (r :: rs)).
    change (1 + length rs)%nat with (length (r :: rs)).
    unfold a, mean_channels. rewrite scale_mean by exact Hk.
    rewrite zip_sub_self. now rewrite Hsum. }
  rewrite Hs, map_repeat. f_equal.
  pose proof (of_nat_nonzero (length (r :: rs)) Hk) as Hq. revert Hq.
  generalize (of_nat (length (r :: rs)) : Qc). intros q Hq. simpl. field. exact Hq.
Qed.

Lemma car_trial_idempotent (trial : matrix Qc) (ns : nat) :
  Forall (fun r => length r = ns) trial ->
  car_trial (car_trial trial) = car_trial trial.
Proof.
  intros Hrect.
  destruct trial as [|r rs] eqn:Et; [reflexivity|]. rewrite <- Et in *.
  assert (Hne : trial <> []) by (rewrite Et; discriminate).
  unfold car_trial at 1.
  rewrite (mean_channels_car trial ns Hne Hrect).
  rewrite <- (map_id (car_trial trial)) at 2.
  apply map_ext_Forall.
  unfold car_trial. apply Forall_map.
  eapply Forall_impl; [|exact Hrect]. intros row Hrow. simpl in Hrow.
  assert (Hl : length (zip_with sub row (mean_channels trial)) = ns).
  { apply zip_with_length; [exact Hrow|].
    unfold mean_channels. rewrite length_map.
    now apply sum_rows_length. }
  rewrite <- Hl at 1. apply zip_sub_zeros.
Qed.

End CarExact.

(** ** Claims on the common average reference *)

(** C10, in exact arithmetic. On a rectangular corpus of rationals the
    common average reference applied twice equals the stage applied once:
    after one application the mean over the channels is zero at every
    sample of every trial. *)
Theorem car_idempotent_exact (data : corpus Qc) (nt nc ns : nat) :
  has_shape nt nc ns data ->
  _common_average_reference (_common_average_reference data)
  = _common_average_reference data /\
  (0 < nc ->
   Forall (fun trial => mean_channels trial = repeat 0%Qc ns)
          (_common_average_reference data)).
Proof.
  intros [_ Hshape]. unfold _common_average_reference. split.
  - rewrite map_map. apply map_ext_Forall.
    eapply Forall_impl; [|exact Hshape].
    intros trial [_ Hrect]. simpl. now apply (car_trial_idempotent trial ns).
  - intros Hnc. apply Forall_map.
    eapply Forall_impl; [|exact Hshape].
    intros trial [Hlen Hrect]. simpl.
    apply mean_channels_car; [|exact Hrect].
    intros ->. simpl in Hlen. lia.
Qed.

Lemma exact_corpus_shape : has_shape 2 2 3 exact_corpus.
Proof. split; [reflexivity|]. repeat constructor. Qed.

Lemma car_idempotent_exact_witness :
  _common_average_reference (_common_average_reference exact_corpus)
  = _common_average_reference exact_corpus.
Proof.
  exact (proj1 (car_idempotent_exact exact_corpus 2 2 3 exact_corpus_shape)).
Defined.

(** C10, on binary64 numbers. With the two channels 0.1 and 0.2 the
    first application leaves a mean of about -1.4e-17, not zero, and the
    second application changes both samples. *)
Lemma car_not_idempotent_binary64 :
  _common_average_reference (_common_average_reference two_channel_corpus)
  <> _common_average_reference two_channel_corpus.
Proof.
  intros H.
  apply (f_equal (fun d : corpus float =>
                    match d with
                    | [(x :: _) :: _] => PrimFloat.eqb x (-0x1.999999999999cp-5)%float
                    | _ => false
                    end)) in H.
  vm_compute in H. discriminate H.
Qed.

Example car_binary64_values :
  _common_average_reference two_channel_corpus
  = [[[-0x1.999999999999cp-5]; [0x1.9999999999998p-5]]]%float /\
  mean_channels [[-0x1.999999999999cp-5]; [0x1.9999999999998p-5]]%float
  = [-0x1p-56]%float /\
  _common_average_reference (_common_average_reference two_channel_corpus)
  = [[[-0x1.999999999999ap-5]; [0x1.999999999999ap-5]]]%float.
Proof. repeat split; vm_compute; reflexivity. Qed.

(** ** Shapes through the conditioning stages *)

Section Shapes.

Context {A : Type} {N : Num A}.

Lemma every_length (factor : nat) (l : list A) (wait : nat) :
  wait < factor ->
  length (every factor wait l) = (length l + (factor - 1) - wait) / factor.
Proof.
  intros Hw. revert wait Hw.
  induction l as [|x l IH]; intros wait Hw; simpl.
  - symmetry. apply Nat.div_small. lia.
  - destruct wait as [|w]; simpl.
    + rewrite IH by lia.
      replace (length l + (factor - 1) - (factor - 1)) with (length l) by lia.
      replace (S (length l + (factor - 1))) with (length l + 1 * factor) by lia.
      rewrite Nat.div_add by lia. lia.
    + rewrite IH by lia. reflexivity.
Qed.

(** Keeping one sample in [factor] leaves the samples divided by the
    factor, rounded up. *)
Lemma downsample_shape (data out : corpus A) (factor nt nc ns : nat) :
  has_shape nt nc ns data ->
  _downsample data factor = Ok out ->
  0 < factor /\ has_shape nt nc ((ns + (factor - 1)) / factor) out.
Proof.
  intros [Hlen Hshape] Hout. unfold _downsample in Hout.
  destruct (Nat.eqb_spec factor 0) as [|Hf]; [discriminate|].
  injection Hout as <-. split; [lia|]. split; [now rewrite length_map|].
  apply Forall_map. eapply Forall_impl; [|exact Hshape].
  intros trial [Hnc Hrows]. simpl. split; [now rewrite length_map|].
  apply Forall_map. eapply Forall_impl; [|exact Hrows].
  intros row Hrow. simpl in *. rewrite every_length by lia.
  rewrite Hrow. f_equal. lia.
Qed.

Lemma car_trial_shape (trial : matrix A) (nc ns : nat) :
  length trial = nc -> Forall (fun row => length row = ns) trial ->
  length (car_trial trial) = nc /\
  Forall (fun row => length row = ns) (car_trial trial).
Proof.
  intros Hnc Hrect. unfold car_trial. split; [now rewrite length_map|].
  destruct trial as [|r rs] eqn:Et; [constructor|]. rewrite <- Et in *.
  assert (Hne : trial <> []) by (rewrite Et; discriminate).
  apply Forall_map. eapply Forall_impl; [|exact Hrect].
  intros row Hrow. simpl in Hrow.
  apply zip_with_length; [exact Hrow|].
  unfold mean_channels. rewrite length_map. now apply sum_rows_length.
Qed.

Lemma car_shape (data : corpus A) (nt nc ns : nat) :
  has_shape nt nc ns data -> has_shape nt nc ns (_common_average_reference data).
Proof.
  intros [Hlen Hshape]. unfold _common_average_reference.
  split; [now rewrite length_map|].
  apply Forall_map. eapply Forall_impl; [|exact Hshape].
  intros trial [Hnc Hrect]. simpl. now apply car_trial_shape.
Qed.

Lemma map_result_Forall_r {X Y} (P : X -> Prop) (Q : Y -> Prop)
  (f : X -> result Y) (xs : list X) (ys : list Y) :
  (forall x y, P x -> f x = Ok y -> Q y) ->
  Forall P xs -> map_result f xs = Ok ys -> Forall Q ys.
Proof.
  intros Hf HP H. apply map_result_Forall2 in H.
  induction H as [|x y xs ys Hxy _ IH]; [constructor|].
  inversion HP; subst. constructor; eauto.
Qed.

(** A stage that maps a length-preserving function over the series
    keeps the shape. *)
Lemma map_series_shape (f : list A -> result (list A)) (g : nat -> nat)
  (data out : corpus A) (nt nc ns : nat) :
  (forall x y, length x = ns -> f x = Ok y -> length y = g ns) ->
  has_shape nt nc ns data ->
  map_result (map_result f) data = Ok out ->
  has_shape nt nc (g ns) out.
Proof.
  intros Hf [Hlen Hshape] Hout. split.
  - etransitivity; [exact (map_result_length _ _ _ Hout) | exact Hlen].
  - eapply map_result_Forall_r; [|exact Hshape|exact Hout].
    intros trial trial' [Hnc Hrows] Htrial. simpl in *. split.
    + etransitivity; [exact (map_result_length _ _ _ Htrial) | exact Hnc].
    + eapply map_result_Forall_r; [|exact Hrows|exact Htrial].
      intros x y Hx Hy. simpl in *. eapply Hf; eassumption.
Qed.

Lemma normalize_signal_length (feature_range : A * A) (signal out : list A) :
  normalize_signal feature_range signal = Ok out -> length out = length signal.
Proof.
  unfold normalize_signal. destruct feature_range as [lo hi].
  destruct signal as [|x xs]; [discriminate|].
  cbv [np_min np_max bind]. intros [= <-]. simpl. now rewrite length_map.
Qed.

End Shapes.

Section Reshape.

Context {A : Type} {N : Num A}.

Lemma chunks_length (k n : nat) (l : list A) : length (chunks k n l) = k.
Proof.
  revert l. induction k as [|k IH]; intros l; simpl; [reflexivity|].
  now rewrite IH.
Qed.

Lemma chunks_rows (k n : nat) (l : list A) :
  k * n <= length l -> Forall (fun c => length c = n) (chunks k n l).
Proof.
  revert l. induction k as [|k IH]; intros l Hl; simpl; constructor.
  - rewrite length_firstn. simpl in Hl. lia.
  - apply IH. rewrite length_skipn. simpl in Hl. lia.
Qed.

Lemma chunks_concat (n : nat) (ls : list (list A)) :
  Forall (fun c => length c = n) ls ->
  chunks (length ls) n (concat ls) = ls.
Proof.
  induction 1 as [|c ls Hc _ IH]; simpl; [reflexivity|].
  subst n.
  rewrite firstn_app, skipn_app, Nat.sub_diag, firstn_all, skipn_all.
  simpl. rewrite app_nil_r. now rewrite IH.
Qed.

Lemma concat_length_rect (n : nat) (ls : list (list A)) :
  Forall (fun c => length c = n) ls -> length (concat ls) = length ls * n.
Proof.
  induction 1 as [|c ls Hc _ IH]; simpl; [reflexivity|].
  rewrite length_app, IH, Hc. reflexivity.
Qed.

(** Whatever the trials are, a successful reshape has the requested
    shape. *)
Lemma reshape3_shape (nt nc ns : nat) (trials : list (matrix A)) (out : corpus A) :
  reshape3 (nt, nc, ns) trials = Ok out -> has_shape nt nc ns out.
Proof.
  unfold reshape3.
  destruct (Nat.eqb_spec (length (flatten3 trials)) (nt * nc * ns)) as [E|]; [|discriminate].
  intros [= <-]. split.
  - now rewrite length_map, chunks_length.
  - apply Forall_map.
    eapply Forall_impl; [|apply (chunks_rows nt (nc * ns)); lia].
    intros piece Hpiece. simpl in *. split.
    + apply chunks_length.
    + apply chunks_rows. lia.
Qed.

(** An array that has the requested shape already is left as it is. *)
Lemma reshape3_id (nt nc ns : nat) (data : corpus A) :
  has_shape nt nc ns data -> reshape3 (nt, nc, ns) data = Ok data.
Proof.
  intros [Hlen Hshape]. unfold reshape3, flatten3.
  unfold corpus, matrix in *.
  assert (Hflat : Forall (fun c => length c = nc * ns) (map (@concat A) data)).
  { apply Forall_map. eapply Forall_impl; [|exact Hshape].
    intros trial [Hnc Hrows]. simpl.
    rewrite (concat_length_rect ns) by exact Hrows. now rewrite Hnc. }
  rewrite (concat_length_rect (nc * ns)) by exact Hflat.
  rewrite length_map, Hlen.
  destruct (Nat.eqb_spec (nt * (nc * ns)) (nt * nc * ns)) as [_|Hne]; [|lia].
  f_equal.
  rewrite <- Hlen at 1. rewrite <- (length_map (@concat A) data).
  rewrite (chunks_concat (nc * ns)) by exact Hflat.
  rewrite map_map. rewrite <- (map_id data) at 2.
  apply map_ext_Forall. eapply Forall_impl; [|exact Hshape].
  intros trial [Hnc Hrows]. simpl.
  rewrite <- Hnc. now apply chunks_concat.
Qed.

(** [data.shape] of an array of shape [(nt, nc, ns)] names the same
    arrays as [(nt, nc, ns)] does. *)
Lemma shape3_has_shape (nt nc ns : nat) (data x : corpus A) :
  has_shape nt nc ns data ->
  (has_shape nt nc ns x <->
   has_shape (fst (fst (shape3 data))) (snd (fst (shape3 data)))
             (snd (shape3 data)) x).
Proof.
  intros [Hlen Hshape]. unfold shape3, shape0, shape1. simpl.
  destruct data as [|trial data']; simpl in *.
  - subst nt. unfold has_shape. split; intros [Hx _]; split; auto;
      destruct x; try discriminate; constructor.
  - inversion Hshape as [|? ? [Hnc Hrows] _]; subst.
    destruct trial as [|r rs]; simpl in *.
    + unfold has_shape. split; intros [Hx Hall]; (split; [exact Hx|]);
        (eapply Forall_impl; [|exact Hall]); intros t [Ht _];
        (split; [exact Ht|]); destruct t; try discriminate; constructor.
    + inversion Hrows; subst. reflexivity.
Qed.

Lemma transpose_shape (cols : nat) (m : matrix A) :
  Forall (fun row => length row = cols) m ->
  length (transpose cols m) = cols /\
  Forall (fun row => length row = length m) (transpose cols m).
Proof.
  induction 1 as [|r rs Hr _ [IHl IHr]]; simpl.
  - split; [apply repeat_length|].
    apply Forall_forall. intros row Hin. apply repeat_spec in Hin. now subst.
  - split.
    + rewrite length_map, length_combine. lia.
    + apply Forall_map. apply Forall_forall. intros [x row] Hin. simpl.
      apply in_combine_r in Hin. rewrite Forall_forall in IHr.
      now rewrite (IHr _ Hin).
Qed.

End Reshape.

(** ** The pipeline *)

Section MapResultFacts.

Lemma map_result_nth_inv {X Y} (f : X -> result Y) (xs : list X) (ys : list Y)
  (k : nat) (y : Y) :
  map_result f xs = Ok ys -> nth_error ys k = Some y ->
  exists x, nth_error xs k = Some x /\ f x = Ok y.
Proof.
  intros H. apply map_result_Forall2 in H. revert k.
  induction H as [|x0 y0 xs ys Hxy _ IH]; intros k Hk.
  - destruct k; discriminate.
  - destruct k as [|k]; simpl in *.
    + injection Hk as <-. eauto.
    + auto.
Qed.

Lemma map_result_from_Forall2 {X Y} (f : nat -> X -> result Y) (xs : list X)
  (ys : list Y) (k0 : nat) :
  map_result_from k0 f xs = Ok ys ->
  length ys = length xs /\
  forall k y, nth_error ys k = Some y ->
              exists x, nth_error xs k = Some x /\ f (k0 + k) x = Ok y.
Proof.
  revert ys k0. induction xs as [|x xs IH]; simpl; intros ys k0 H.
  - injection H as <-. split; [reflexivity|]. intros [|k] y Hk; discriminate.
  - apply bind_Ok_inv in H. destruct H as [y0 [Hy0 H]].
    apply bind_Ok_inv in H. destruct H as [ys' [Hys H]].
    injection H as <-. destruct (IH _ _ Hys) as [Hlen Hnth].
    split; [simpl; now rewrite Hlen|].
    intros [|k] y Hk; simpl in *.
    + injection Hk as <-. exists x. now rewrite Nat.add_0_r.
    + destruct (Hnth _ _ Hk) as [x' [Hx' Hf]]. exists x'.
      split; [exact Hx'|]. now rewrite <- Nat.add_succ_comm.
Qed.

Lemma option_map_Some {X Y} (f : X -> Y) (o : option X) (y : Y) :
  option_map f o = Some y -> exists x, o = Some x /\ y = f x.
Proof.
  destruct o as [x|]; simpl; [|discriminate].
  intros [= <-]. eauto.
Qed.

Lemma nth_error_Forall {X} (P : X -> Prop) (xs : list X) :
  (forall k x, nth_error xs k = Some x -> P x) -> Forall P xs.
Proof.
  intros H. apply Forall_forall. intros x Hin.
  apply In_nth_error in Hin. destruct Hin as [k Hk]. eauto.
Qed.

Lemma Forall_nth_error {X} (P : X -> Prop) (xs : list X) (k : nat) (x : X) :
  Forall P xs -> nth_error xs k = Some x -> P x.
Proof.
  intros H Hk. rewrite Forall_forall in H. apply H.
  eapply nth_error_In; eassumption.
Qed.

End MapResultFacts.

Section Pipeline.

Context {A : Type} {N : Num A}.
Variable butter : nat -> A -> list A * list A.
Variable filtfilt : list A -> list A -> list A -> result (list A).
Variable ica_round_trip : nat -> nat -> matrix A -> result (matrix A).

Hypothesis filtfilt_keeps_length : filtfilt_contract filtfilt.

Lemma butterworth_shape (data out : corpus A) (fs cutoff : A) (order : nat)
  (nt nc ns : nat) :
  has_shape nt nc ns data ->
  _butterworth_lowpass_filter butter filtfilt data fs cutoff order = Ok out ->
  has_shape nt nc ns out.
Proof.
  intros Hshape. unfold _butterworth_lowpass_filter.
  destruct (butter order _) as [b a]. intros Hout.
  apply (map_series_shape (filtfilt b a) (fun n => n) data out nt nc ns);
    try assumption.
  intros x y Hx Hy. rewrite (filtfilt_keeps_length _ _ _ _ Hy). exact Hx.
Qed.

(** The first reshape of [_apply_ica] returns its argument or raises. *)
Lemma reshape_infer_last_Ok (data reshaped : corpus A) :
  reshape_infer_last data = Ok reshaped ->
  reshaped = data /\ 0 < length data * shape0 (hd [] data).
Proof.
  unfold reshape_infer_last.
  destruct (length data * shape0 (hd [] data) =? 0) eqn:E; [discriminate|].
  intros [= <-]. apply Nat.eqb_neq in E. split; [reflexivity|lia].
Qed.

Lemma reshape_infer_last_id (data : corpus A) (nt nc ns : nat) :
  0 < nt -> 0 < nc -> has_shape nt nc ns data ->
  reshape_infer_last data = Ok data.
Proof.
  intros Hnt Hnc [Hlen Hall]. unfold reshape_infer_last.
  destruct data as [|t0 data']; [simpl in Hlen; lia|].
  apply Forall_inv in Hall. destruct Hall as [Hc _].
  simpl hd. unfold shape0. rewrite Hc.
  destruct (length (t0 :: data') * nc =? 0) eqn:E; [|reflexivity].
  apply Nat.eqb_eq in E. simpl in E. lia.
Qed.

Lemma apply_ica_shape (data out : corpus A) (nt nc ns : nat) :
  has_shape nt nc ns data ->
  _apply_ica ica_round_trip data = Ok out ->
  has_shape nt nc ns out.
Proof.
  intros Hshape Hout. unfold _apply_ica in Hout.
  apply bind_Ok_inv in Hout. destruct Hout as [reshaped [_ Hout]].
  apply bind_Ok_inv in Hout. destruct Hout as [cleaned [_ Hre]].
  apply (shape3_has_shape nt nc ns data out Hshape).
  destruct (shape3 data) as [[a b] c]. simpl.
  exact (reshape3_shape _ _ _ _ _ Hre).
Qed.

Lemma normalization_shape (data out : corpus A) (feature_range : A * A)
  (nt nc ns : nat) :
  has_shape nt nc ns data ->
  _min_max_normalization_per_signal data feature_range = Ok out ->
  has_shape nt nc ns out.
Proof.
  intros Hshape Hout.
  apply (map_series_shape (normalize_signal feature_range) (fun n => n)
           data out nt nc ns); try assumption.
  intros x y Hx Hy. rewrite (normalize_signal_length _ _ _ Hy). exact Hx.
Qed.

(** The shape after the five stages. *)
Lemma pipeline_shape (all_trials out : corpus A) (nt nc ns : nat) :
  has_shape nt nc ns all_trials ->
  conditioning_pipeline butter filtfilt ica_round_trip all_trials = Ok out ->
  has_shape nt nc ((ns + 1) / 2) out.
Proof.
  intros Hshape Hout. unfold conditioning_pipeline in Hout.
  apply bind_Ok_inv in Hout. destruct Hout as [filtered [H1 Hout]].
  apply bind_Ok_inv in Hout. destruct Hout as [cleaned [H3 Hout]].
  apply bind_Ok_inv in Hout. destruct Hout as [down [H4 H5]].
  apply (butterworth_shape _ _ _ _ _ nt nc ns Hshape) in H1.
  apply car_shape in H1.
  apply (apply_ica_shape _ _ nt nc ns H1) in H3.
  destruct (downsample_shape _ _ _ nt nc ns H3 H4) as [_ H4'].
  exact (normalization_shape _ _ _ _ _ _ H4' H5).
Qed.

Hypothesis ica_keeps_shape : ica_contract ica_round_trip.

(** With the round trip keeping the shape, the last reshape of
    [_apply_ica] changes nothing: the stage works trial by trial. *)
Lemma apply_ica_trialwise (data out : corpus A) (nt nc ns : nat) :
  0 < nc -> 0 < ns ->
  has_shape nt nc ns data ->
  _apply_ica ica_round_trip data = Ok out ->
  forall k trial', nth_error out k = Some trial' ->
    exists trial round_trip,
      nth_error data k = Some trial /\
      ica_round_trip nc k (transpose (shape1 trial) trial) = Ok round_trip /\
      trial' = transpose (shape1 round_trip) round_trip.
Proof.
  intros Hnc Hns Hshape Hout. unfold _apply_ica in Hout.
  apply bind_Ok_inv in Hout. destruct Hout as [reshaped [Hrs Hout]].
  apply reshape_infer_last_Ok in Hrs. destruct Hrs as [-> _].
  apply bind_Ok_inv in Hout. destruct Hout as [cleaned [Hcl Hre]].
  destruct (map_result_from_Forall2 _ _ _ _ Hcl) as [Hlen Hnth].
  destruct Hshape as [Hnt Hall].
  assert (Hclean : has_shape nt nc ns cleaned).
  { split; [unfold corpus, matrix in *; congruence|].
    apply nth_error_Forall. intros k c Hk.
    destruct (Hnth _ _ Hk) as [trial [Htrial Hstep]].
    destruct (Forall_nth_error _ _ _ _ Hall Htrial) as [Htl Hrows].
    apply bind_Ok_inv in Hstep. destruct Hstep as [rt [Hrt Hc]].
    injection Hc as <-.
    assert (Hs1 : shape1 trial = ns).
    { apply shape1_rect; [exact Hrows|]. intros ->. simpl in Htl. lia. }
    rewrite Hs1 in Hrt.
    destruct (transpose_shape ns trial Hrows) as [HTl HTr].
    destruct (ica_keeps_shape _ _ _ _ _ HTr Hrt) as [Hrl Hrr].
    rewrite HTl in Hrl. rewrite Htl in Hrr.
    assert (Hs2 : shape1 rt = nc).
    { apply shape1_rect; [exact Hrr|]. intros ->. simpl in Hrl. lia. }
    rewrite Hs2. destruct (transpose_shape nc rt Hrr) as [Hl Hr].
    split; [exact Hl|]. now rewrite Hrl in Hr. }
  assert (Hid : reshape3 (shape3 data) cleaned = Ok cleaned).
  { pose proof (proj1 (shape3_has_shape nt nc ns data cleaned (conj Hnt Hall)) Hclean)
      as Hsh.
    destruct (shape3 data) as [[a b] c]. simpl in Hsh.
    now apply reshape3_id. }
  rewrite Hid in Hre. injection Hre as <-.
  intros k trial' Hk.
  destruct (Hnth _ _ Hk) as [trial [Htrial Hstep]].
  apply bind_Ok_inv in Hstep. destruct Hstep as [rt [Hrt Hc]].
  injection Hc as <-.
  exists trial, rt. split; [exact Htrial|]. split; [|reflexivity].
  assert (Hn : shape0 (hd [] data) = nc).
  { destruct data as [|t0 data']; [destruct k; discriminate|].
    apply Forall_inv in Hall. exact (proj1 Hall). }
  rewrite Hn in Hrt. exact Hrt.
Qed.

(** The [k]-th trial of the output is the conditioning of the [k]-th
    trial of the input. *)
Lemma pipeline_trialwise (all_trials out : corpus A) (nt nc ns : nat) :
  0 < nc -> 0 < ns ->
  has_shape nt nc ns all_trials ->
  conditioning_pipeline butter filtfilt ica_round_trip all_trials = Ok out ->
  forall k trial', nth_error out k = Some trial' ->
    exists trial, nth_error all_trials k = Some trial /\
                  condition_trial butter filtfilt ica_round_trip nc k trial
                  = Ok trial'.
Proof.
  intros Hnc Hns Hshape Hout k trial' Hk.
  unfold conditioning_pipeline in Hout.
  apply bind_Ok_inv in Hout. destruct Hout as [filtered [H1 Hout]].
  apply bind_Ok_inv in Hout. destruct Hout as [cleaned [H3 Hout]].
  apply bind_Ok_inv in Hout. destruct Hout as [down [H4 H5]].
  pose proof (butterworth_shape _ _ _ _ _ nt nc ns Hshape H1) as S1.
  pose proof (car_shape _ _ _ _ S1) as S2.
  unfold _min_max_normalization_per_signal in H5.
  destruct (map_result_nth_inv _ _ _ _ _ H5 Hk) as [d [Hd Hnorm]].
  unfold _downsample in H4. simpl in H4. injection H4 as <-.
  rewrite nth_error_map in Hd.
  apply option_map_Some in Hd. destruct Hd as [c [Hc ->]].
  destruct (apply_ica_trialwise _ _ nt nc ns Hnc Hns S2 H3 _ _ Hc)
    as [r [rt [Hr [Hrt ->]]]].
  unfold _common_average_reference in Hr. rewrite nth_error_map in Hr.
  apply option_map_Some in Hr. destruct Hr as [f [Hf ->]].
  unfold _butterworth_lowpass_filter in H1.
  unfold condition_trial.
  destruct (butter 7 _) as [b a].
  destruct (map_result_nth_inv _ _ _ _ _ H1 Hf) as [trial [Htrial Hfilt]].
  exists trial. split; [exact Htrial|].
  rewrite Hfilt. simpl. rewrite Hrt. simpl. exact Hnorm.
Qed.

End Pipeline.

(** ** Claims on the pipeline *)

(** C5, with the rounding of the downsampling made explicit. With a
    filter that keeps the number of samples and a decomposition round
    trip that keeps the shape of its argument, the five stages map a
    corpus of shape [(nt, nc, ns)] to one of shape
    [(nt, nc, ceil(ns / 2))], which is [(nt, nc, ns / 2)] when [ns] is
    even; [_downsample] with a factor [N > 0] leaves [ceil(ns / N)]
    samples.  No trial is dropped or moved: the [k]-th trial of the
    output is the conditioning of the [k]-th trial of the input. *)
Theorem conditioning_pipeline_shape {A : Type} {N : Num A}
  (butter : nat -> A -> list A * list A)
  (filtfilt : list A -> list A -> list A -> result (list A))
  (ica_round_trip : nat -> nat -> matrix A -> result (matrix A))
  (all_trials out : corpus A) (nt nc ns : nat) :
  filtfilt_contract filtfilt ->
  ica_contract ica_round_trip ->
  has_shape nt nc ns all_trials ->
  conditioning_pipeline butter filtfilt ica_round_trip all_trials = Ok out ->
  has_shape nt nc ((ns + 1) / 2) out /\
  (Nat.even ns = true -> has_shape nt nc (ns / 2) out) /\
  (forall (data down : corpus A) (factor : nat),
     has_shape nt nc ns data -> _downsample data factor = Ok down ->
     0 < factor /\ has_shape nt nc ((ns + (factor - 1)) / factor) down) /\
  (0 < nc -> 0 < ns ->
   forall k trial', nth_error out k = Some trial' ->
     exists trial, nth_error all_trials k = Some trial /\
                   condition_trial butter filtfilt ica_round_trip nc k trial
                   = Ok trial').
Proof.
  intros Hfilt Hica Hshape Hout.
  pose proof (pipeline_shape butter filtfilt ica_round_trip Hfilt
                all_trials out nt nc ns Hshape Hout) as Hs.
  split; [exact Hs|]. split; [|split].
  - intros Heven. apply Nat.even_spec in Heven. destruct Heven as [h ->].
    replace (2 * h / 2) with ((2 * h + 1) / 2); [exact Hs|].
    rewrite (Nat.mul_comm 2 h), Nat.div_mul by lia.
    rewrite Nat.add_comm, Nat.div_add by lia. reflexivity.
  - intros data down factor Hd Hdown. exact (downsample_shape _ _ _ _ _ _ Hd Hdown).
  - intros Hnc Hns.
    exact (pipeline_trialwise butter filtfilt ica_round_trip Hfilt Hica
             all_trials out nt nc ns Hnc Hns Hshape Hout).
Qed.

Lemma pass_filtfilt_contract {A : Type} : filtfilt_contract (@pass_filtfilt A).
Proof. intros b a x y [= <-]. reflexivity. Qed.

Lemma pass_ica_contract {A : Type} : ica_contract (@pass_ica A).
Proof. intros n k X Y cols HX [= <-]. split; [reflexivity | exact HX]. Qed.

Lemma odd_corpus_shape : has_shape 1 1 25 odd_corpus.
Proof. split; [reflexivity|]. repeat constructor. Qed.

Lemma conditioning_pipeline_shape_witness :
  exists out,
    conditioning_pipeline pass_butter pass_filtfilt pass_ica odd_corpus = Ok out /\
    has_shape 1 1 13 out.
Proof.
  destruct (conditioning_pipeline pass_butter pass_filtfilt pass_ica odd_corpus)
    as [out|e] eqn:E; [|vm_compute in E; discriminate].
  exists out. split; [reflexivity|].
  exact (proj1 (conditioning_pipeline_shape pass_butter pass_filtfilt pass_ica
                  odd_corpus out 1 1 25 pass_filtfilt_contract pass_ica_contract
                  odd_corpus_shape E)).
Defined.

(** C5 as stated fails on an odd number of samples: of 25 samples,
    [_downsample] keeps the 13 at the even positions, which is neither
    25 / 2 = 12 nor half of 25. *)
Lemma downsample_odd_length :
  exists down,
    _downsample odd_corpus default_factor = Ok down /\
    has_shape 1 1 25 odd_corpus /\
    has_shape 1 1 13 down /\
    ~ has_shape 1 1 (25 / 2) down /\
    13 * default_factor <> 25.
Proof.
  eexists. split; [reflexivity|].
  split; [exact odd_corpus_shape|].
  split; [split; [reflexivity | repeat constructor]|].
  split; [|discriminate].
  intros [_ H]. apply Forall_inv in H. destruct H as [_ H].
  apply Forall_inv in H. vm_compute in H. discriminate H.
Qed.

(** ** Construction of the dataset *)

Section Construction.

Context {A : Type} {N : Num A}.
Variable butter : nat -> A -> list A * list A.
Variable filtfilt : list A -> list A -> list A -> result (list A).
Variable ica_round_trip : nat -> nat -> matrix A -> result (matrix A).

Lemma dict_get_unknown {V} (d : list (string * V)) (key : string) :
  ~ In key (map fst d) -> dict_get d key = Raise (KeyError [key]).
Proof.
  induction d as [|[k v] d IH]; simpl; intros Hnot; [reflexivity|].
  destruct (String.eqb_spec key k) as [->|Hne].
  - exfalso. apply Hnot. now left.
  - apply IH. intros Hin. apply Hnot. now right.
Qed.

(** The tag is looked up when the first table is scanned, not before. *)
Lemma extract_trials_unknown_class (df : @DataFrame A)
  (class_type trial_type : string) (target : nat) :
  ~ recognized_class class_type ->
  extract_trials df class_type trial_type target = Raise (KeyError [class_type]).
Proof.
  intros Hnot. unfold extract_trials.
  now rewrite (dict_get_unknown _ _ Hnot).
Qed.

Lemma read_files_unknown_class (files : list (string * @DataFrame A))
  (class_type trial_type : string) (acc : @trials_labels A) (log : read_log) :
  ~ recognized_class class_type ->
  read_files files class_type trial_type acc log
  = match files with
    | [] => (log, Ok acc)
    | (eeg_file, _) :: _ => (log ++ [eeg_file], Raise (KeyError [class_type]))
    end.
Proof.
  intros Hnot. destruct files as [|[eeg_file df] files]; simpl; [reflexivity|].
  now rewrite (extract_trials_unknown_class _ _ _ _ Hnot).
Qed.

Lemma read_sessions_unknown_class (sessions : list (@Session A))
  (class_type trial_type : string) (acc : @trials_labels A) (log : read_log) :
  ~ recognized_class class_type ->
  read_sessions sessions class_type trial_type acc log
  = match all_files sessions with
    | [] => (log, Ok acc)
    | (eeg_file, _) :: _ => (log ++ [eeg_file], Raise (KeyError [class_type]))
    end.
Proof.
  intros Hnot. unfold all_files.
  induction sessions as [|session sessions IH]; simpl; [reflexivity|].
  rewrite (read_files_unknown_class _ _ _ _ _ Hnot).
  destruct (parquet_files session) as [|[eeg_file df] files]; simpl.
  - exact IH.
  - reflexivity.
Qed.

(** Without any recording file no table is scanned and the tags are
    never looked at. *)
Lemma read_sessions_no_file (sessions : list (@Session A))
  (class_type trial_type : string) (acc : @trials_labels A) (log : read_log) :
  all_files sessions = [] ->
  read_sessions sessions class_type trial_type acc log = (log, Ok acc).
Proof.
  unfold all_files.
  induction sessions as [|session sessions IH]; simpl; intros Hnil; [reflexivity|].
  apply app_eq_nil in Hnil. destruct Hnil as [Hs Hrest].
  rewrite Hs. simpl. now apply IH.
Qed.

Lemma for_each_ext {St X} (f g : St -> X -> result St) (xs : list X) (st : St) :
  (forall s x, f s x = g s x) -> for_each f xs st = for_each g xs st.
Proof.
  intros Hfg. revert st. induction xs as [|x xs IH]; intros st; simpl; [reflexivity|].
  rewrite Hfg. destruct (g st x); simpl; auto.
Qed.

(** The trial type is only ever compared with "reading". *)
Lemma extract_trials_trial_type (df : @DataFrame A)
  (class_type trial_type other : string) (target : nat) :
  is_reading trial_type = is_reading other ->
  extract_trials df class_type trial_type target
  = extract_trials df class_type other target.
Proof.
  intros Hsame. unfold extract_trials.
  destruct (dict_get selected_electrodes class_type) as [selected|e]; simpl;
    [|reflexivity].
  apply for_each_ext. intros st i.
  unfold extract_body, start_event_of. now rewrite Hsame.
Qed.

Lemma read_files_trial_type (files : list (string * @DataFrame A))
  (class_type trial_type other : string) (acc : @trials_labels A) (log : read_log) :
  is_reading trial_type = is_reading other ->
  read_files files class_type trial_type acc log
  = read_files files class_type other acc log.
Proof.
  intros Hsame. revert acc log.
  induction files as [|[eeg_file df] files IH]; intros acc log; simpl; [reflexivity|].
  rewrite (extract_trials_trial_type df class_type trial_type other _ Hsame).
  destruct (extract_trials df class_type other default_target_samples)
    as [[trials labels]|e]; [apply IH | reflexivity].
Qed.

Lemma read_sessions_trial_type (sessions : list (@Session A))
  (class_type trial_type other : string) (acc : @trials_labels A) (log : read_log) :
  is_reading trial_type = is_reading other ->
  read_sessions sessions class_type trial_type acc log
  = read_sessions sessions class_type other acc log.
Proof.
  intros Hsame. revert acc log.
  induction sessions as [|session sessions IH]; intros acc log; simpl; [reflexivity|].
  rewrite (read_files_trial_type _ class_type trial_type other _ _ Hsame).
  destruct (read_files _ class_type other acc log) as [log' [acc'|e]];
    [apply IH | reflexivity].
Qed.

Lemma init_trial_type (sessions : list (@Session A))
  (class_type trial_type other : string) :
  is_reading trial_type = is_reading other ->
  __init__ butter filtfilt ica_round_trip sessions class_type trial_type
  = __init__ butter filtfilt ica_round_trip sessions class_type other.
Proof.
  intros Hsame. unfold __init__, get_trials.
  now rewrite (read_sessions_trial_type _ class_type trial_type other _ _ Hsame).
Qed.

Lemma init_unknown_class (sessions : list (@Session A))
  (class_type trial_type : string) :
  ~ recognized_class class_type ->
  match all_files sessions with
  | (first_file, _) :: _ =>
      __init__ butter filtfilt ica_round_trip sessions class_type trial_type
      = ([first_file], Raise (KeyError [class_type]))
  | [] =>
      forall other_class,
        __init__ butter filtfilt ica_round_trip sessions class_type trial_type
        = __init__ butter filtfilt ica_round_trip sessions other_class trial_type
  end.
Proof.
  intros Hnot. unfold __init__, get_trials.
  destruct (all_files sessions) as [|[first_file df] files] eqn:Ef.
  - intros other_class. now rewrite !read_sessions_no_file by exact Ef.
  - rewrite (read_sessions_unknown_class _ _ _ _ _ Hnot), Ef. reflexivity.
Qed.

End Construction.

Lemma not_reading_iff (trial_type : string) :
  trial_type <> "reading"%string <-> is_reading trial_type = false.
Proof.
  unfold is_reading. destruct (String.eqb_spec trial_type "reading"); split;
    congruence.
Qed.

(** ** Claims on the construction and on random access *)

(** C7, as the code has it. No tag is checked at construction time. A
    [class_type] without an entry in [selected_electrodes] makes
    construction fail with the KeyError of the dictionary lookup, which
    carries the tag alone, and only once the first recording file has been
    read; when there is no recording file the tag is never looked up and
    the outcome is the one of any other [class_type].  A [trial_type] is
    never rejected: every tag other than "reading" behaves as every other
    such tag (start marker 30, label offset 3). *)
Theorem unknown_tags_at_construction {A : Type} {N : Num A}
  (butter : nat -> A -> list A * list A)
  (filtfilt : list A -> list A -> list A -> result (list A))
  (ica_round_trip : nat -> nat -> matrix A -> result (matrix A))
  (sessions : list (@Session A)) (class_type trial_type : string) :
  (~ recognized_class class_type ->
   match all_files sessions with
   | (first_file, _) :: _ =>
       __init__ butter filtfilt ica_round_trip sessions class_type trial_type
       = ([first_file], Raise (KeyError [class_type]))
   | [] =>
       forall other_class,
         __init__ butter filtfilt ica_round_trip sessions class_type trial_type
         = __init__ butter filtfilt ica_round_trip sessions other_class trial_type
   end) /\
  (trial_type <> "reading"%string ->
   start_event_of trial_type = 30%Z /\
   label_offset trial_type = 3 /\
   forall other, other <> "reading"%string ->
     __init__ butter filtfilt ica_round_trip sessions class_type trial_type
     = __init__ butter filtfilt ica_round_trip sessions class_type other).
Proof.
  split.
  - intros Hnot. now apply init_unknown_class.
  - intros Htt. apply not_reading_iff in Htt.
    unfold start_event_of, label_offset. rewrite Htt.
    repeat split. intros other Hother. apply not_reading_iff in Hother.
    apply init_trial_type. congruence.
Qed.

Lemma XX_not_recognized : ~ recognized_class "XX".
Proof.
  unfold recognized_class. simpl.
  intros [H|[H|[H|[H|[]]]]]; discriminate H.
Qed.

Lemma unknown_tags_at_construction_witness :
  __init__ pass_butter pass_filtfilt pass_ica [reading_session] "XX" "reading"
  = (["S01/rec.parquet"%string], Raise (KeyError ["XX"%string])).
Proof.
  exact (proj1 (unknown_tags_at_construction pass_butter pass_filtfilt pass_ica
                  [reading_session] "XX" "reading") XX_not_recognized).
Defined.

(** C7 as stated fails twice. With the unknown class "XX" the file of
    the session is read before the error, and the error carries the tag
    alone; with the unknown trial type "singing" the construction
    succeeds and holds one trial. *)
Lemma unknown_tags_not_rejected :
  __init__ pass_butter pass_filtfilt pass_ica [reading_session] "XX" "reading"
  = (["S01/rec.parquet"%string], Raise (KeyError ["XX"%string])) /\
  fst (__init__ pass_butter pass_filtfilt pass_ica [other_session]
         "AK-SREP" "singing")
  = ["S02/rec.parquet"%string] /\
  exists dataset,
    snd (__init__ pass_butter pass_filtfilt pass_ica [other_session]
           "AK-SREP" "singing")
    = Ok dataset /\
    __len__ dataset = 1.
Proof.
  split; [reflexivity|]. split; [vm_compute; reflexivity|].
  destruct (snd (__init__ pass_butter pass_filtfilt pass_ica [other_session]
                   "AK-SREP" "singing")) as [dataset|e] eqn:E.
  - exists dataset. split; [reflexivity|].
    apply (f_equal (fun r => match r with
                             | Ok d => __len__ d
                             | Raise _ => 0
                             end)) in E.
    vm_compute in E. symmetry. exact E.
  - vm_compute in E. discriminate E.
Qed.

Section RandomAccess.

Context {A : Type}.
Variable compute_G : matrix A -> matrix A.
Variable Tensor : Type.
Variable torch_tensor : matrix A -> Tensor.

(** The item at a position of the lists. *)
Lemma getitem_at (self : @EEGDataLoader A) (idx : Z) (pos : nat)
  (trial : matrix A) (label : Z) :
  py_index (data self) idx = Ok trial ->
  py_index (labels self) idx = Ok label ->
  __getitem__ compute_G torch_tensor self idx
  = Ok (torch_tensor trial, torch_tensor (compute_G trial), (label - 1)%Z).
Proof.
  intros Hd Hl. unfold __getitem__. rewrite Hd. simpl. rewrite Hl. reflexivity.
Qed.

Lemma getitem_range (self : @EEGDataLoader A) (idx : Z) :
  length (labels self) = length (data self) ->
  let n := Z.of_nat (__len__ self) in
  (0 <= idx < n ->
   exists trial label,
     nth_error (data self) (Z.to_nat idx) = Some trial /\
     nth_error (labels self) (Z.to_nat idx) = Some label /\
     __getitem__ compute_G torch_tensor self idx
     = Ok (torch_tensor trial, torch_tensor (compute_G trial), label - 1))%Z /\
  (- n <= idx < 0 ->
   exists trial label,
     nth_error (data self) (Z.to_nat (n + idx)) = Some trial /\
     nth_error (labels self) (Z.to_nat (n + idx)) = Some label /\
     __getitem__ compute_G torch_tensor self idx
     = Ok (torch_tensor trial, torch_tensor (compute_G trial), label - 1))%Z /\
  (idx < - n \/ n <= idx ->
   __getitem__ compute_G torch_tensor self idx = Raise IndexError)%Z.
Proof.
  intros Hlen n. unfold __len__ in n. subst n.
  split; [|split].
  - intros Hidx.
    exists (nth (Z.to_nat idx) (data self) []), (nth (Z.to_nat idx) (labels self) 0%Z).
    split; [apply nth_error_nth'; lia|].
    split; [apply nth_error_nth'; lia|].
    apply (getitem_at self idx (Z.to_nat idx)).
    + rewrite <- (Z2Nat.id idx) at 1 by lia. apply py_index_nonneg. lia.
    + rewrite <- (Z2Nat.id idx) at 1 by lia. apply py_index_nonneg. lia.
  - intros Hidx.
    exists (nth (Z.to_nat (Z.of_nat (length (data self)) + idx)) (data self) []),
           (nth (Z.to_nat (Z.of_nat (length (data self)) + idx)) (labels self) 0%Z).
    split; [apply nth_error_nth'; lia|].
    split; [apply nth_error_nth'; lia|].
    apply (getitem_at self idx 0).
    + apply py_index_wrap. lia.
    + rewrite <- Hlen. apply py_index_wrap. lia.
  - intros Hidx. unfold __getitem__.
    rewrite (py_index_out (data self) idx Hidx). reflexivity.
Qed.

End RandomAccess.

(** C8, as the code has it. On a dataset of [n] trials with one label
    per trial, [__getitem__] succeeds exactly for the indices in
    [-n, n): an index in [0, n) gives the trial and the label at that
    position, an index in [-n, 0) gives those at position [n + idx]
    (Python's indexing from the end), with the label lowered by one in
    both cases; every other index raises IndexError. *)
Theorem getitem_index_range {A : Type}
  (compute_G : matrix A -> matrix A) (Tensor : Type)
  (torch_tensor : matrix A -> Tensor)
  (self : @EEGDataLoader A) (idx : Z) :
  length (labels self) = length (data self) ->
  let n := Z.of_nat (__len__ self) in
  (succeeds (__getitem__ compute_G torch_tensor self idx) <-> (- n <= idx < n)%Z) /\
  ((0 <= idx < n)%Z ->
   exists trial label,
     nth_error (data self) (Z.to_nat idx) = Some trial /\
     nth_error (labels self) (Z.to_nat idx) = Some label /\
     __getitem__ compute_G torch_tensor self idx
     = Ok (torch_tensor trial, torch_tensor (compute_G trial), (label - 1)%Z)) /\
  ((- n <= idx < 0)%Z ->
   exists trial label,
     nth_error (data self) (Z.to_nat (n + idx)) = Some trial /\
     nth_error (labels self) (Z.to_nat (n + idx)) = Some label /\
     __getitem__ compute_G torch_tensor self idx
     = Ok (torch_tensor trial, torch_tensor (compute_G trial), (label - 1)%Z)) /\
  ((idx < - n \/ n <= idx)%Z ->
   __getitem__ compute_G torch_tensor self idx = Raise IndexError).
Proof.
  intros Hlen n.
  destruct (getitem_range compute_G Tensor torch_tensor self idx Hlen)
    as [Hpos [Hneg Hout]].
  fold n in Hpos, Hneg, Hout.
  split; [|split; [exact Hpos | split; [exact Hneg | exact Hout]]].
  split.
  - intros [item Hitem].
    destruct (Z_lt_le_dec idx (- n)) as [Hlow|Hlow];
      [rewrite Hout in Hitem by lia; discriminate|].
    destruct (Z_lt_le_dec idx n) as [Hhigh|Hhigh]; [lia|].
    rewrite Hout in Hitem by lia. discriminate.
  - intros Hidx. destruct (Z_lt_le_dec idx 0) as [Hn|Hn].
    + destruct Hneg as [trial [label [_ [_ H]]]]; [lia|].
      unfold succeeds. eexists. exact H.
    + destruct Hpos as [trial [label [_ [_ H]]]]; [lia|].
      unfold succeeds. eexists. exact H.
Qed.

Lemma getitem_index_range_witness :
  __getitem__ pass_compute_G pass_tensor two_trials (-1)
  = Ok ([[2%float]], [], 6%Z).
Proof.
  destruct (getitem_index_range pass_compute_G (matrix float) pass_tensor
              two_trials (-1) eq_refl) as [_ [_ [Hneg _]]].
  destruct Hneg as [trial [label [Ht [Hl H]]]]; [simpl; lia|].
  injection Ht as <-. injection Hl as <-. exact H.
Defined.

(** C8 as stated fails on the negative indices: on a dataset of two
    trials, the index -1 is outside [0, 2), yet the access raises nothing
    and returns the last trial with its label. *)
Lemma getitem_negative_index :
  __len__ two_trials = 2 /\
  __getitem__ pass_compute_G pass_tensor two_trials (-1)
  = Ok ([[2%float]], [], 6%Z) /\
  __getitem__ pass_compute_G pass_tensor two_trials 1
  = Ok ([[2%float]], [], 6%Z).
Proof. repeat split. Qed.

(** ** The corpus that [get_trials] assembles *)

Section Corpus.

Context {A : Type} {N : Num A}.
Variable butter : nat -> A -> list A * list A.
Variable filtfilt : list A -> list A -> list A -> result (list A).
Variable ica_round_trip : nat -> nat -> matrix A -> result (matrix A).

Lemma read_files_app (files1 files2 : list (string * @DataFrame A))
  (class_type trial_type : string) (acc : @trials_labels A) (log : read_log) :
  read_files (files1 ++ files2) class_type trial_type acc log
  = match read_files files1 class_type trial_type acc log with
    | (log', Ok acc') => read_files files2 class_type trial_type acc' log'
    | (log', Raise e) => (log', Raise e)
    end.
Proof.
  revert acc log.
  induction files1 as [|[eeg_file df] files1 IH]; intros acc log; simpl; [reflexivity|].
  destruct (extract_trials df class_type trial_type default_target_samples)
    as [[trials labels]|e]; [apply IH | reflexivity].
Qed.

(** The two nested loops read the files of all the sessions one after
    the other. *)
Lemma read_sessions_flat (sessions : list (@Session A))
  (class_type trial_type : string) (acc : @trials_labels A) (log : read_log) :
  read_sessions sessions class_type trial_type acc log
  = read_files (all_files sessions) class_type trial_type acc log.
Proof.
  unfold all_files. revert acc log.
  induction sessions as [|session sessions IH]; intros acc log; simpl; [reflexivity|].
  rewrite read_files_app.
  destruct (read_files (parquet_files session) class_type trial_type acc log)
    as [log' [acc'|e]]; [apply IH | reflexivity].
Qed.

(** What the loop has read and collected when it ends without an
    exception. *)
Lemma read_files_ok (files : list (string * @DataFrame A))
  (class_type trial_type : string) (acc acc' : @trials_labels A)
  (log log' : read_log) :
  read_files files class_type trial_type acc log = (log', Ok acc') ->
  log' = log ++ map fst files /\
  exists outs : list (@trials_labels A),
    Forall2 (fun file out =>
               extract_trials (snd file) class_type trial_type
                              default_target_samples = Ok out) files outs /\
    fst acc' = fst acc ++ concat (map fst outs) /\
    snd acc' = snd acc ++ concat (map snd outs).
Proof.
  revert acc log.
  induction files as [|[eeg_file df] files IH]; intros acc log; simpl.
  - intros [= <- <-]. split; [now rewrite app_nil_r|].
    exists []. simpl. rewrite !app_nil_r. repeat split. constructor.
  - destruct (extract_trials df class_type trial_type default_target_samples)
      as [[trials labels]|e] eqn:Eex; [|discriminate].
    intros H. destruct (IH _ _ H) as [Hlog [outs [Hall [Hfst Hsnd]]]].
    split; [rewrite Hlog, <- app_assoc; reflexivity|].
    exists ((trials, labels) :: outs). simpl in *.
    split; [constructor; [exact Eex | exact Hall]|].
    rewrite Hfst, Hsnd, <- !app_assoc. split; reflexivity.
Qed.


(** Every stage keeps the number of trials, whatever the collaborators
    return. *)
Lemma pipeline_length (all_trials out : corpus A) :
  conditioning_pipeline butter filtfilt ica_round_trip all_trials = Ok out ->
  length out = length all_trials.
Proof.
  intros Hout. unfold conditioning_pipeline in Hout.
  apply bind_Ok_inv in Hout. destruct Hout as [filtered [H1 Hout]].
  apply bind_Ok_inv in Hout. destruct Hout as [cleaned [H3 Hout]].
  apply bind_Ok_inv in Hout. destruct Hout as [down [H4 H5]].
  unfold _butterworth_lowpass_filter in H1. destruct (butter 7 _) as [b a].
  apply map_result_length in H1.
  unfold _apply_ica in H3.
  apply bind_Ok_inv in H3. destruct H3 as [reshaped [_ H3]].
  apply bind_Ok_inv in H3. destruct H3 as [cl [_ Hre]].
  assert (H3 : length cleaned = length (_common_average_reference filtered)).
  { unfold shape3 in Hre. apply reshape3_shape in Hre. exact (proj1 Hre). }
  unfold _common_average_reference in H3. rewrite length_map in H3.
  unfold _downsample in H4. simpl in H4. injection H4 as <-.
  apply map_result_length in H5. rewrite length_map in H5.
  unfold corpus, matrix in *. congruence.
Qed.

End Corpus.

Section CorpusFacts.

Context {A : Type} {N : Num A}.
Variable butter : nat -> A -> list A * list A.
Variable filtfilt : list A -> list A -> list A -> result (list A).
Variable ica_round_trip : nat -> nat -> matrix A -> result (matrix A).

(** The labels of one table, whether or not its trials can be sliced. *)
Lemma extract_trials_ok_labels (df : @DataFrame A) (class_type trial_type : string)
  (target : nat) (trials : list (matrix A)) (labels : list Z) :
  extract_trials df class_type trial_type target = Ok (trials, labels) ->
  labels = map (label_of df trial_type) (kept_positions df trial_type) /\
  length trials = length labels.
Proof.
  intros Hex.
  destruct (extract_trials_selected _ _ _ _ _ Hex) as [sel Hsel].
  rewrite (extract_trials_spec df _ trial_type target _ Hsel) in Hex.
  apply bind_Ok_inv in Hex. destruct Hex as [ts [Hts Hex]].
  injection Hex as <- <-. split; [reflexivity|].
  rewrite length_map. exact (map_result_length _ _ _ Hts).
Qed.

Lemma concat_lengths_eq {X Y} (outs : list (list X * list Y)) :
  Forall (fun out => length (fst out) = length (snd out)) outs ->
  length (concat (map fst outs)) = length (concat (map snd outs)).
Proof.
  induction 1 as [|out outs Ho _ IH]; simpl; [reflexivity|].
  rewrite !length_app. congruence.
Qed.

(** What a successful [get_trials] has read, and what it returns. *)
Lemma get_trials_ok (sessions : list (@Session A)) (class_type trial_type : string)
  (log : read_log) (normalized_data : corpus A) (all_labels : list Z) :
  get_trials butter filtfilt ica_round_trip sessions class_type trial_type
  = (log, Ok (normalized_data, all_labels)) ->
  log = map fst (all_files sessions) /\
  all_labels
  = concat (map (fun file => map (label_of (snd file) trial_type)
                                 (kept_positions (snd file) trial_type))
                (all_files sessions)) /\
  length normalized_data = length all_labels /\
  normalized_data <> [].
Proof.
  unfold get_trials. rewrite read_sessions_flat.
  destruct (read_files (all_files sessions) class_type trial_type ([], []) [])
    as [log' [[all_trials labels']|e]] eqn:Eread; [|discriminate].
  destruct (read_files_ok _ _ _ _ _ _ _ Eread) as [Hlog [outs [Hall [Hfst Hsnd]]]].
  simpl in Hlog, Hfst, Hsnd.
  destruct all_trials as [|trial0 all_trials'] eqn:Etrials.
  { destruct (butter 7 _) as [b a]. destruct (filtfilt b a []); discriminate. }
  rewrite <- Etrials in *.
  destruct (conditioning_pipeline butter filtfilt ica_round_trip all_trials)
    as [out|e] eqn:Epipe; [|discriminate].
  simpl. intros [= <- <- <-].
  assert (Hlabels : labels'
                    = concat (map (fun file => map (label_of (snd file) trial_type)
                                                   (kept_positions (snd file) trial_type))
                                  (all_files sessions))).
  { rewrite Hsnd. f_equal. clear Hfst Hsnd Eread Hlog.
    induction Hall as [|file [ts ls] files outs' Hf _ IH]; simpl; [reflexivity|].
    rewrite IH. f_equal. exact (proj1 (extract_trials_ok_labels _ _ _ _ _ _ Hf)). }
  assert (Hlen : length all_trials = length labels').
  { rewrite Hfst, Hsnd. apply concat_lengths_eq.
    clear Hfst Hsnd Eread Hlog Hlabels.
    induction Hall as [|file [ts ls] files outs' Hf _ IH]; constructor; auto.
    exact (proj2 (extract_trials_ok_labels _ _ _ _ _ _ Hf)). }
  pose proof (pipeline_length _ _ _ _ _ Epipe) as Hpl.
  split; [exact Hlog|]. split; [exact Hlabels|].
  split; [congruence|].
  intros ->. rewrite Etrials in Hpl. discriminate Hpl.
Qed.

Lemma init_ok (sessions : list (@Session A)) (class_type trial_type : string)
  (log : read_log) (self : @EEGDataLoader A) :
  __init__ butter filtfilt ica_round_trip sessions class_type trial_type
  = (log, Ok self) ->
  get_trials butter filtfilt ica_round_trip sessions class_type trial_type
  = (log, Ok (data self, labels self)) /\
  sessions_of self = sessions.
Proof.
  unfold __init__.
  destruct (get_trials butter filtfilt ica_round_trip sessions class_type trial_type)
    as [log' [[d l]|e]]; simpl; [|discriminate].
  intros [= <- <-]. simpl. split; reflexivity.
Qed.




End CorpusFacts.

(** ** Further properties of the assembly *)

(** X1. A dataset that [__init__] returns holds at least one trial and
    exactly one label per trial; its labels are the labels that
    [extract_trials] reads in each table, in session-then-file order,
    untouched by the conditioning pipeline. *)
Theorem init_dataset_invariant {A : Type} {N : Num A}
  (butter : nat -> A -> list A * list A)
  (filtfilt : list A -> list A -> list A -> result (list A))
  (ica_round_trip : nat -> nat -> matrix A -> result (matrix A))
  (sessions : list (@Session A)) (class_type trial_type : string)
  (log : read_log) (self : @EEGDataLoader A) :
  __init__ butter filtfilt ica_round_trip sessions class_type trial_type
  = (log, Ok self) ->
  0 < __len__ self /\
  length (labels self) = __len__ self /\
  labels self
  = concat (map (fun file => map (label_of (snd file) trial_type)
                                 (kept_positions (snd file) trial_type))
                (all_files sessions)).
Proof.
  intros Hinit.
  destruct (init_ok _ _ _ _ _ _ _ _ Hinit) as [Hget _].
  destruct (get_trials_ok _ _ _ _ _ _ _ _ _ Hget) as [_ [Hlabels [Hlen Hne]]].
  unfold __len__. repeat split.
  - destruct (data self); [congruence | simpl; lia].
  - symmetry. exact Hlen.
  - exact Hlabels.
Qed.

Lemma init_dataset_invariant_witness :
  exists self,
    snd (__init__ pass_butter pass_filtfilt pass_ica [other_session]
           "AK-SREP" "singing") = Ok self /\
    labels self = [9%Z].
Proof.
  destruct (__init__ pass_butter pass_filtfilt pass_ica [other_session]
              "AK-SREP" "singing") as [log [self|e]] eqn:E.
  - exists self. split; [reflexivity|].
    destruct (init_dataset_invariant _ _ _ _ _ _ _ _ E) as [_ [_ Hl]].
    rewrite Hl. reflexivity.
  - apply (f_equal (fun p => match snd p with Ok _ => true | Raise _ => false end))
      in E.
    vm_compute in E. discriminate E.
Defined.



(** X3. On a dataset that [__init__] returns, [__getitem__] succeeds at
    every index from 0 to [len - 1] and returns the trial stored at that
    position, its adjacency matrix and its label lowered by one. *)
Theorem getitem_after_init {A : Type} {N : Num A}
  (butter : nat -> A -> list A * list A)
  (filtfilt : list A -> list A -> list A -> result (list A))
  (ica_round_trip : nat -> nat -> matrix A -> result (matrix A))
  (compute_G : matrix A -> matrix A) (Tensor : Type)
  (torch_tensor : matrix A -> Tensor)
  (sessions : list (@Session A)) (class_type trial_type : string)
  (log : read_log) (self : @EEGDataLoader A) (idx : Z) :
  __init__ butter filtfilt ica_round_trip sessions class_type trial_type
  = (log, Ok self) ->
  (0 <= idx < Z.of_nat (__len__ self))%Z ->
  exists trial label,
    nth_error (data self) (Z.to_nat idx) = Some trial /\
    nth_error (labels self) (Z.to_nat idx) = Some label /\
    __getitem__ compute_G torch_tensor self idx
    = Ok (torch_tensor trial, torch_tensor (compute_G trial), (label - 1)%Z).
Proof.
  intros Hinit Hidx.
  destruct (init_ok _ _ _ _ _ _ _ _ Hinit) as [Hget _].
  destruct (get_trials_ok _ _ _ _ _ _ _ _ _ Hget) as [_ [_ [Hlen _]]].
  exact (proj1 (getitem_range compute_G Tensor torch_tensor self idx
                  (eq_sym Hlen)) Hidx).
Qed.

Lemma getitem_after_init_witness :
  exists item,
    (let (_, r) := __init__ pass_butter pass_filtfilt pass_ica [other_session]
                     "AK-SREP" "singing" in
     self <- r ;; __getitem__ pass_compute_G pass_tensor self 0)
    = Ok item /\ snd item = 8%Z.
Proof.
  destruct (__init__ pass_butter pass_filtfilt pass_ica [other_session]
              "AK-SREP" "singing") as [log [self|e]] eqn:E.
  - destruct (init_ok _ _ _ _ _ _ _ _ E) as [Hget _].
    destruct (get_trials_ok _ _ _ _ _ _ _ _ _ Hget) as [_ [Hlabels [_ Hne]]].
    destruct (getitem_after_init _ _ _ pass_compute_G (matrix float) pass_tensor
                _ _ _ _ self 0 E) as [trial [label [_ [Hl Hitem]]]].
    + unfold __len__. destruct (data self); [congruence | simpl; lia].
    + simpl bind. rewrite Hitem. eexists. split; [reflexivity|]. simpl.
      rewrite Hlabels in Hl. vm_compute in Hl. injection Hl as <-. reflexivity.
  - apply (f_equal (fun p => match snd p with Ok _ => true | Raise _ => false end))
      in E.
    vm_compute in E. discriminate E.
Defined.

(** ** Further properties of the trial extractor *)

Section MissingColumns.

Context {A : Type} {N : Num A}.

Lemma absent_columns_nil (df : @DataFrame A) (names : list string) :
  absent_columns df names = [] <-> columns_present df names.
Proof.
  unfold absent_columns, columns_present.
  induction names as [|name names IH]; simpl.
  - split; [constructor | reflexivity].
  - destruct (has_column df name) eqn:Eh; simpl.
    + rewrite IH. split; [now constructor | now inversion 1].
    + split; [discriminate|]. inversion 1. congruence.
Qed.

(** Every requested position is absent exactly when the absent ones
    are as many as the requested ones. *)
Lemma filter_length_forallb {X} (f : X -> bool) (l : list X) :
  (length (filter f l) =? length l) = forallb f l.
Proof.
  induction l as [|x l IH]; simpl; [reflexivity|].
  destruct (f x); simpl; [exact IH|].
  apply Nat.eqb_neq. pose proof (filter_length_le f l). lia.
Qed.

Lemma df_loc_T_absent (df : @DataFrame A) (s e : nat) (names : list string) :
  ~ columns_present df names ->
  df_loc_T df s e names = Raise (KeyError (missing_key df names)).
Proof.
  intros Hnot. unfold df_loc_T, missing_key, not_in_index.
  fold (absent_columns df names).
  destruct (absent_columns df names) eqn:Ea.
  - exfalso. apply Hnot. now apply absent_columns_nil.
  - rewrite <- Ea. unfold absent_columns at 1.
    now rewrite filter_length_forallb.
Qed.

Lemma unique_labels_In (l : list string) (x : string) :
  In x (unique_labels l) <-> In x l.
Proof.
  induction l as [|a l IH]; simpl; [tauto|].
  rewrite filter_In, IH.
  destruct (String.eqb_spec x a) as [->|Hne]; simpl.
  - split; auto.
  - split.
    + intros [->|[H _]]; [congruence | now right].
    + intros [->|H]; [congruence | right; now split].
Qed.

Lemma unique_labels_NoDup (l : list string) : NoDup (unique_labels l).
Proof.
  induction l as [|a l IH]; simpl; constructor.
  - rewrite filter_In, String.eqb_refl. intros [_ H]. discriminate H.
  - now apply NoDup_filter.
Qed.

End MissingColumns.

(** X4. A selected electrode that is no column of the table is an error
    only when a trial is sliced: with no kept candidate [extract_trials]
    returns no trial and no label, and with at least one it raises a
    KeyError.  When none of the selected names is a column the error
    quotes the whole selection; otherwise it quotes exactly the selected
    names absent from the table, each once, in the order of their first
    appearance in the selection. *)
Theorem extract_trials_missing_electrode {A : Type} {N : Num A}
  (df : @DataFrame A) (class_type trial_type : string) (target_samples : nat)
  (selected_names : list string) :
  dict_get selected_electrodes class_type = Ok selected_names ->
  (kept_positions df trial_type = [] ->
   extract_trials df class_type trial_type target_samples = Ok ([], [])) /\
  (kept_positions df trial_type <> [] ->
   ~ columns_present df selected_names ->
   exists keys,
     extract_trials df class_type trial_type target_samples
     = Raise (KeyError keys) /\
     ((forall name, In name selected_names -> has_column df name = false) ->
      keys = selected_names) /\
     ((exists name, In name selected_names /\ has_column df name = true) ->
      keys = unique_labels (absent_columns df selected_names) /\
      NoDup keys /\
      (forall name, In name keys <->
                    In name selected_names /\ has_column df name = false))).
Proof.
  intros Hsel.
  rewrite (extract_trials_spec df _ trial_type target_samples _ Hsel).
  split.
  - intros ->. reflexivity.
  - intros Hne Hnot. exists (missing_key df selected_names). split.
    + destruct (kept_positions df trial_type) as [|i rest]; [congruence|].
      simpl. unfold trial_of at 1.
      now rewrite (df_loc_T_absent df _ _ _ Hnot).
    + unfold missing_key. split.
      * intros Hall.
        assert (E : forallb (fun name => negb (has_column df name))
                            selected_names = true).
        { apply forallb_forall. intros name Hin. now rewrite (Hall _ Hin). }
        now rewrite E.
      * intros [name [Hin Hcol]].
        assert (E : forallb (fun name => negb (has_column df name))
                            selected_names = false).
        { destruct (forallb _ selected_names) eqn:E; [|reflexivity].
          rewrite forallb_forall in E. specialize (E _ Hin).
          rewrite Hcol in E. discriminate E. }
        rewrite E. split; [reflexivity|].
        split; [apply unique_labels_NoDup|].
        intros x. rewrite unique_labels_In. unfold absent_columns.
        rewrite filter_In. now rewrite negb_true_iff.
Qed.

Lemma extract_trials_missing_electrode_witness :
  extract_trials table_without_F4 "CTK-SREP" "reading" 6
  = Raise (KeyError ["F4"%string]).
Proof.
  destruct (proj2 (extract_trials_missing_electrode table_without_F4 "CTK-SREP"
                     "reading" 6 CTK_SREP_electrodes eq_refl))
    as [keys [Hraise [_ Hsome]]].
  - discriminate.
  - intros H. apply absent_columns_nil in H. discriminate H.
  - destruct Hsome as [Hkeys _].
    + exists "F1"%string. split; [now left | reflexivity].
    + rewrite Hkeys in Hraise. exact Hraise.
Defined.

Section EventStream.

(** A cell found by [notna] holds its value at its row. *)
Lemma notna_lookup (col : list (option Z)) (k i r : nat) (v : Z) :
  nth_error (notna k col) i = Some (r, v) ->
  k <= r /\ nth_error col (r - k) = Some (Some v).
Proof.
  revert k i. induction col as [|[v0|] col IH]; intros k i; simpl.
  - destruct i; discriminate.
  - destruct i as [|i]; simpl.
    + intros [= <- <-]. split; [lia|]. now rewrite Nat.sub_diag.
    + intros H. destruct (IH _ _ H) as [Hk Hc]. split; [lia|].
      replace (r - k) with (S (r - S k)) by lia. exact Hc.
  - intros H. destruct (IH _ _ H) as [Hk Hc]. split; [lia|].
    replace (r - k) with (S (r - S k)) by lia. exact Hc.
Qed.

(** The rows found by [notna] increase with the position. *)
Lemma notna_sorted (col : list (option Z)) (k i j : nat) (p q : nat * Z) :
  i < j ->
  nth_error (notna k col) i = Some p ->
  nth_error (notna k col) j = Some q ->
  fst p < fst q.
Proof.
  revert k i j. induction col as [|[v0|] col IH]; intros k i j Hij; simpl.
  - destruct i; discriminate.
  - destruct j as [|j]; [lia|]. destruct i as [|i]; simpl.
    + intros [= <-] Hq. simpl.
      pose proof (notna_bounds col (S k)) as Hb. rewrite Forall_forall in Hb.
      apply nth_error_In in Hq. specialize (Hb _ Hq). lia.
    + apply IH. lia.
  - apply IH. exact Hij.
Qed.

(** Every cell that is not empty is found. *)
Lemma notna_complete (col : list (option Z)) (k r : nat) (v : Z) :
  nth_error col r = Some (Some v) ->
  exists j, nth_error (notna k col) j = Some (k + r, v).
Proof.
  revert k r. induction col as [|[v0|] col IH]; intros k r; simpl.
  - destruct r; discriminate.
  - destruct r as [|r]; simpl.
    + intros [= <-]. exists 0. simpl. now rewrite Nat.add_0_r.
    + intros H. destruct (IH (S k) _ H) as [j Hj]. exists (S j). simpl.
      rewrite Hj. do 2 f_equal. lia.
  - destruct r as [|r]; simpl; [discriminate|].
    intros H. destruct (IH (S k) _ H) as [j Hj]. exists j.
    rewrite Hj. do 2 f_equal. lia.
Qed.

Context {A : Type} {N : Num A}.

Lemma event_stream_nth (df : @DataFrame A) (i : nat) :
  i < length (event_values df) ->
  nth_error (notna 0 (event_column df)) i
  = Some (nth i (event_indices df) 0, nth i (event_values df) 0%Z).
Proof.
  intros Hi. unfold event_indices, event_values in *.
  rewrite length_map in Hi.
  rewrite (nth_error_nth' _ (0, 0%Z) Hi).
  rewrite (surjective_pairing (nth i (notna 0 (event_column df)) (0, 0%Z))).
  do 2 f_equal.
  - exact (eq_sym (map_nth fst (notna 0 (event_column df)) (0, 0%Z) i)).
  - exact (eq_sym (map_nth snd (notna 0 (event_column df)) (0, 0%Z) i)).
Qed.

End EventStream.

(** X5. The span of a kept candidate runs from the row of its own start
    marker to the row of the next event of the column, both included:
    the first row holds the start marker, the last row holds the next
    marker, every row strictly between them has an empty event cell, and
    the slice of a well-formed table has [end - start + 1 >= 2] samples
    per electrode. *)
Theorem span_between_consecutive_events {A : Type} {N : Num A}
  (df : @DataFrame A) (trial_type : string) (i : nat) :
  In i (kept_positions df trial_type) ->
  let start_idx := fst (span_of df i) in
  let end_idx := snd (span_of df i) in
  start_idx < end_idx < n_rows df /\
  nth_error (event_column df) start_idx = Some (Some (start_event_of trial_type)) /\
  nth_error (event_column df) end_idx
  = Some (Some (nth (i + 1) (event_values df) 0%Z)) /\
  (forall r, start_idx < r < end_idx -> nth_error (event_column df) r = Some None) /\
  (forall names span,
     wf_df df -> df_loc_T df start_idx end_idx names = Ok span ->
     2 <= end_idx - start_idx + 1 /\
     Forall (fun row => length row = end_idx - start_idx + 1) span).
Proof.
  intros Hin. cbv zeta. unfold span_of. cbn [fst snd].
  destruct (kept_position_inv _ _ _ Hin) as [H0 [Hnext Hev]].
  assert (Hi : i < length (event_values df)) by lia.
  pose proof (event_stream_nth df i Hi) as Hs.
  pose proof (event_stream_nth df (i + 1) Hnext) as He.
  rewrite (nth_error_nth' _ 0%Z Hi) in Hev. injection Hev as Hev.
  rewrite Hev in Hs.
  pose proof (event_index_in_table df (i + 1) Hnext) as Hend.
  remember (nth i (event_indices df) 0) as start_idx eqn:Es.
  remember (nth (i + 1) (event_indices df) 0) as end_idx eqn:Ee.
  clear Es Ee.
  destruct (notna_lookup _ _ _ _ _ Hs) as [_ Hcs].
  destruct (notna_lookup _ _ _ _ _ He) as [_ Hce].
  rewrite Nat.sub_0_r in Hcs, Hce.
  assert (Hlt : start_idx < end_idx).
  { exact (notna_sorted _ 0 i (i + 1) _ _ ltac:(lia) Hs He). }
  split; [lia|]. split; [exact Hcs|]. split; [exact Hce|]. split.
  - intros r Hr.
    destruct (nth_error (event_column df) r) as [[v|]|] eqn:Er.
    + exfalso. destruct (notna_complete _ 0 _ _ Er) as [j Hj]. simpl in Hj.
      destruct (Nat.lt_trichotomy j i) as [Hji | [-> | Hji]].
      * pose proof (notna_sorted _ 0 j i _ _ Hji Hj Hs) as Hc. simpl in Hc. lia.
      * rewrite Hj in Hs. injection Hs as Hs _. lia.
      * destruct (Nat.eq_dec j (i + 1)) as [-> | Hne].
        -- rewrite Hj in He. injection He as He _. lia.
        -- pose proof (notna_sorted _ 0 (i + 1) j _ _ ltac:(lia) He Hj) as Hc.
           simpl in Hc. lia.
    + reflexivity.
    + exfalso. apply nth_error_None in Er. unfold n_rows in Hend. lia.
  - intros names span Hwf Hspan. split; [lia|].
    destruct (df_loc_T_shape _ _ _ _ _ Hwf Hspan) as [_ Hcols].
    eapply Forall_impl; [|exact Hcols]. intros row Hrow. cbv beta in Hrow.
    rewrite Hrow. lia.
Qed.

Lemma span_between_consecutive_events_witness :
  span_of reading_table 1 = (2, 6) /\
  nth_error (event_column reading_table) 2 = Some (Some 21%Z) /\
  nth_error (event_column reading_table) 6 = Some (Some 8%Z).
Proof.
  destruct (span_between_consecutive_events reading_table "reading" 1
              ltac:(now left)) as [_ [Hs [He _]]].
  split; [reflexivity|]. split; [exact Hs | exact He].
Defined.

(** ** Further properties of the conditioning stages *)

Section Downsample.

Context {A : Type} {N : Num A}.

Lemma nth_error_every (factor : nat) (l : list A) (wait j : nat) :
  wait < factor ->
  nth_error (every factor wait l) j = nth_error l (wait + j * factor).
Proof.
  intros Hw. revert wait j Hw.
  induction l as [|x l IH]; intros wait j Hw; simpl.
  - now rewrite !nth_error_nil.
  - destruct wait as [|w]; simpl.
    + destruct j as [|j]; simpl; [reflexivity|].
      rewrite IH by lia.
      replace (factor + j * factor) with (S (factor - 1 + j * factor)) by lia.
      reflexivity.
    + apply IH. lia.
Qed.

Lemma every_one (l : list A) : every 1 0 l = l.
Proof.
  induction l as [|x l IH]; simpl; [reflexivity|]. now rewrite IH.
Qed.

Lemma Forall2_map_r {X Y} (R : X -> Y -> Prop) (f : X -> Y) (xs : list X) :
  (forall x, R x (f x)) -> Forall2 R xs (map f xs).
Proof.
  intros HR. induction xs as [|x xs IH]; simpl; constructor; auto.
Qed.

End Downsample.

(** X6. [_downsample] raises ValueError for a factor of zero and is the
    identity for a factor of one.  For a positive factor it keeps the
    trials and channels in place and, of every channel, exactly the
    samples at the positions 0, factor, 2 * factor, ...: sample [j] of
    the output is sample [j * factor] of the input. *)
Theorem downsample_keeps_every_nth {A : Type} {N : Num A}
  (data : corpus A) (factor : nat) :
  (factor = 0 -> _downsample data factor = Raise ValueError) /\
  (factor = 1 -> _downsample data factor = Ok data) /\
  (0 < factor ->
   exists out,
     _downsample data factor = Ok out /\
     Forall2 (Forall2 (fun row row' =>
                         forall j, nth_error row' j = nth_error row (j * factor)))
             data out).
Proof.
  unfold _downsample. split; [|split].
  - intros ->. reflexivity.
  - intros ->. simpl. f_equal.
    rewrite <- (map_id data) at 2. apply map_ext. intros trial.
    rewrite <- (map_id trial) at 2. apply map_ext. intros row.
    apply every_one.
  - intros Hf. destruct (Nat.eqb_spec factor 0) as [|_]; [lia|].
    eexists. split; [reflexivity|].
    apply Forall2_map_r. intros trial.
    apply Forall2_map_r. intros row j.
    now rewrite nth_error_every by lia.
Qed.

Lemma downsample_keeps_every_nth_witness :
  exists out,
    _downsample [[[10; 11; 12; 13; 14]%float]] 2 = Ok out /\
    Forall2 (Forall2 (fun row row' : list float =>
                        forall j, nth_error row' j = nth_error row (j * 2)))
            [[[10; 11; 12; 13; 14]%float]] out.
Proof.
  exact (proj2 (proj2 (downsample_keeps_every_nth
                         [[[10; 11; 12; 13; 14]%float]] 2))
               (Nat.lt_0_succ 1)).
Defined.

Section TransposeTwice.

Context {A : Type} {N : Num A}.

(** Prepending a row before transposing back. *)
Lemma transpose_cons_columns (k : nat) (r : list A) (T : matrix A) :
  length r = length T ->
  transpose (S k) (map (fun p => fst p :: snd p) (combine r T))
  = r :: transpose k T.
Proof.
  revert T. induction r as [|x r IH]; intros [|t T] Hlen;
    try discriminate Hlen; simpl; [reflexivity|].
  injection Hlen as Hlen. rewrite (IH T Hlen). reflexivity.
Qed.

Lemma transpose_involutive (cols : nat) (m : matrix A) :
  Forall (fun row => length row = cols) m ->
  transpose (length m) (transpose cols m) = m.
Proof.
  induction 1 as [|r rs Hr Hrs IH]; simpl.
  - destruct cols; reflexivity.
  - rewrite transpose_cons_columns.
    + now rewrite IH.
    + rewrite Hr. symmetry. exact (proj1 (transpose_shape cols rs Hrs)).
Qed.

(** The two transpositions of [_apply_ica], with the column counts the
    code reads from the shapes. *)
Lemma transpose_round_trip (trial : matrix A) (nc ns : nat) :
  0 < nc -> 0 < ns ->
  length trial = nc -> Forall (fun row => length row = ns) trial ->
  let trial_T := transpose (shape1 trial) trial in
  transpose (shape1 trial_T) trial_T = trial.
Proof.
  intros Hnc Hns Hlen Hrows.
  assert (Hs1 : shape1 trial = ns).
  { apply shape1_rect; [exact Hrows|]. intros ->. simpl in Hlen. lia. }
  cbv zeta. rewrite Hs1.
  destruct (transpose_shape ns trial Hrows) as [HTl HTr].
  assert (Hs2 : shape1 (transpose ns trial) = nc).
  { rewrite <- Hlen. apply shape1_rect; [exact HTr|].
    intros E. rewrite E in HTl. simpl in HTl. lia. }
  rewrite Hs2, <- Hlen. now apply transpose_involutive.
Qed.

Lemma map_result_from_total {X Y} (f : nat -> X -> result Y) (g : X -> Y)
  (xs : list X) (k0 : nat) :
  (forall k x, In x xs -> f k x = Ok (g x)) ->
  map_result_from k0 f xs = Ok (map g xs).
Proof.
  revert k0. induction xs as [|x xs IH]; intros k0 Hf; simpl; [reflexivity|].
  rewrite (Hf k0 x (or_introl eq_refl)). simpl.
  rewrite IH by (intros k y Hy; apply Hf; now right). reflexivity.
Qed.

End TransposeTwice.

(** X7. When the decomposition round trip reconstructs its argument
    exactly, [_apply_ica] returns the corpus it is given, provided the
    corpus holds at least one trial: the first reshape, the
    transposition before the round trip, the one after it and the final
    reshape cancel on every corpus of shape [(nt, nc, ns)] with at least
    one channel and one sample.  On a corpus without trials the first
    reshape cannot infer its last extent and the stage raises
    ValueError. *)
Theorem apply_ica_exact_reconstruction {A : Type} {N : Num A}
  (ica_round_trip : nat -> nat -> matrix A -> result (matrix A))
  (data : corpus A) (nt nc ns : nat) :
  (forall n k X, ica_round_trip n k X = Ok X) ->
  0 < nc -> 0 < ns ->
  has_shape nt nc ns data ->
  _apply_ica ica_round_trip data
  = match nt with
    | 0 => Raise ValueError
    | S _ => Ok data
    end.
Proof.
  intros Hexact Hnc Hns Hshape. unfold _apply_ica.
  destruct nt as [|nt'].
  - destruct Hshape as [Hlen _]. apply length_zero_iff_nil in Hlen.
    subst data. reflexivity.
  - rewrite (reshape_infer_last_id data (S nt') nc ns (Nat.lt_0_succ nt') Hnc Hshape).
    unfold bind at 1.
    rewrite (map_result_from_total _ (fun trial => trial)).
    + rewrite map_id. unfold bind.
      pose proof (proj1 (shape3_has_shape (S nt') nc ns data data Hshape) Hshape)
        as Hsh.
      destruct (shape3 data) as [[a b] c]. simpl in Hsh.
      now apply reshape3_id.
    + intros k trial Hin. rewrite Hexact. simpl. f_equal.
      destruct Hshape as [_ Hall]. rewrite Forall_forall in Hall.
      destruct (Hall _ Hin) as [Hlen Hrows].
      exact (transpose_round_trip trial nc ns Hnc Hns Hlen Hrows).
Qed.

Lemma apply_ica_exact_reconstruction_witness :
  _apply_ica pass_ica constant_channel_corpus = Ok constant_channel_corpus.
Proof.
  apply (apply_ica_exact_reconstruction pass_ica constant_channel_corpus 1 2 3).
  - reflexivity.
  - lia.
  - lia.
  - split; [reflexivity|]. repeat constructor.
Defined.


Section Binary64NaN.

#[local] Open Scope float_scope.













End Binary64NaN.


